(** * IAM_ROLE_NOT_USED: a shallow embedding of the managed Config rule

    The rule lives in [IAM_ROLE_NOT_USED/IAM_ROLE_NOT_USED.py].  It has two
    entry points, [evaluate_parameters] (validation of the single rule
    parameter [DaysBeforeUnused]) and [evaluate_periodic] (one compliance
    finding per IAM role).  Both work on plain Python dictionaries, so the
    embedding keeps them dynamically typed: a dictionary is a finite map
    from strings to Python values, and every built-in the rule calls
    ([dict.get], truthiness, [int], [str.format], [datetime] subtraction,
    [timedelta.days]) is a function on those values that either returns or
    raises. *)

From Stdlib Require Import ZArith String Ascii List Lia Bool.
From stdpp Require Import gmap strings.

Local Open Scope Z_scope.

(** ** Python values, exceptions and built-ins *)

Module Py.

(** The values that reach the rule: JSON scalars of the parameter map,
    the timestamps boto3 puts in a role record, and nested dictionaries
    such as [RoleLastUsed].  A [datetime] is timezone-aware and is kept as
    its number of microseconds since the epoch; a [str] is kept as its
    UTF-8 bytes.  Two kinds of JSON value have no constructor here, floats
    and lists: nothing below speaks about a map that holds one. *)
#[warnings="-register-all"]
Inductive pyval : Type :=
| PNone
| PBool (b : bool)
| PInt (n : Z)
| PStr (s : string)
| PDatetime (t : Z)
| PDict (d : gmap string pyval).

Inductive exn : Type :=
| ValueError
| TypeError
| AttributeError
| KeyError
| IndexError
| InvalidParametersError (msg : string).

(** A call either raises or returns. *)
Definition result (A : Type) : Type := (exn + A)%type.
Abbreviation Raise := (@inl exn _).
Abbreviation Ok := (@inr exn _).

Definition bind {A B : Type} (m : result A) (k : A -> result B) : result B :=
  match m with
  | inl e => inl e
  | inr a => k a
  end.

Notation "'let*' x := m 'in' k" := (bind m (fun x => k))
  (at level 10, x name, m at level 100, k at level 200).

(** [bool(v)] *)
Definition truthy (v : pyval) : bool :=
  match v with
  | PNone => false
  | PBool b => b
  | PInt n => negb (n =? 0)
  | PStr s => negb (Nat.eqb (String.length s) 0)
  | PDatetime _ => true
  | PDict d => negb (Nat.eqb (size d) 0)
  end.

(** [d.get(k)]: [None] when the key is missing. *)
Definition dict_get (d : gmap string pyval) (k : string) : pyval :=
  match d !! k with
  | Some v => v
  | None => PNone
  end.

(** [d[k]]: raises [KeyError] when the key is missing. *)
Definition dict_getitem (d : gmap string pyval) (k : string) : result pyval :=
  match d !! k with
  | Some v => Ok v
  | None => Raise KeyError
  end.

(** [v.get(k)] on an arbitrary value: only dictionaries have the method. *)
Definition py_get (v : pyval) (k : string) : result pyval :=
  match v with
  | PDict d => Ok (dict_get d k)
  | _ => Raise AttributeError
  end.

(** [l[i]] on a list: raises [IndexError] out of range. *)
Definition list_getitem {A : Type} (l : list A) (i : nat) : result A :=
  match nth_error l i with
  | Some a => Ok a
  | None => Raise IndexError
  end.

(** *** [int(s)] on a string, base 10

    CPython first rewrites the string ([str] to ASCII): a code point below
    127 is kept, a Unicode blank becomes a space, a Unicode decimal digit
    becomes the ASCII digit of the same value, and anything else makes the
    conversion fail.  The ASCII text is then read as a numeral: leading
    and trailing ASCII whitespace is skipped, one sign is allowed, and
    digits may be grouped by single underscores.  Integers are unbounded;
    the interpreter's configurable cap on the number of digits of a
    conversion is left out. *)

Definition is_continuation (b : N) : bool := ((128 <=? b) && (b <? 192))%N.

(** The code points of a UTF-8 byte sequence; [None] when the bytes are
    not the encoding of any string (stray or missing continuation bytes,
    overlong forms, surrogates, values above U+10FFFF). *)
Fixpoint utf8_decode (bs : list ascii) : option (list N) :=
  match bs with
  | [] => Some []
  | b1 :: r1 =>
      let n1 := N_of_ascii b1 in
      if (n1 <? 128)%N then option_map (cons n1) (utf8_decode r1)
      else if (n1 <? 224)%N then
        match r1 with
        | b2 :: r2 =>
            let n2 := N_of_ascii b2 in
            let cp := ((n1 - 192) * 64 + (n2 - 128))%N in
            if ((192 <=? n1) && is_continuation n2 && (128 <=? cp))%N
            then option_map (cons cp) (utf8_decode r2)
            else None
        | [] => None
        end
      else if (n1 <? 240)%N then
        match r1 with
        | b2 :: b3 :: r3 =>
            let n2 := N_of_ascii b2 in
            let n3 := N_of_ascii b3 in
            let cp := ((n1 - 224) * 4096 + (n2 - 128) * 64 + (n3 - 128))%N in
            if (is_continuation n2 && is_continuation n3 && (2048 <=? cp)
                && negb ((55296 <=? cp) && (cp <=? 57343)))%N
            then option_map (cons cp) (utf8_decode r3)
            else None
        | _ => None
        end
      else
        match r1 with
        | b2 :: b3 :: b4 :: r4 =>
            let n2 := N_of_ascii b2 in
            let n3 := N_of_ascii b3 in
            let n4 := N_of_ascii b4 in
            let cp := ((n1 - 240) * 262144 + (n2 - 128) * 4096
                       + (n3 - 128) * 64 + (n4 - 128))%N in
            if ((n1 <? 248) && is_continuation n2 && is_continuation n3
                && is_continuation n4 && (65536 <=? cp) && (cp <=? 1114111))%N
            then option_map (cons cp) (utf8_decode r4)
            else None
        | _ => None
        end
  end.

(** [str.isspace] on one code point (Unicode 14.0, the database of
    CPython 3.11). *)
Definition unicode_isspace (cp : N) : bool :=
  (((9 <=? cp) && (cp <=? 13)) || ((28 <=? cp) && (cp <=? 32))
   || (cp =? 133) || (cp =? 160) || (cp =? 5760)
   || ((8192 <=? cp) && (cp <=? 8202))
   || (cp =? 8232) || (cp =? 8233) || (cp =? 8239) || (cp =? 8287)
   || (cp =? 12288))%N.

(** The code point of the digit zero of every decimal digit system of
    Unicode 14.0; the ten digits of a system are consecutive. *)
Definition DECIMAL_ZEROS : list N :=
  [ 48; 1632; 1776; 1984; 2406; 2534; 2662; 2790; 2918; 3046; 3174; 3302;
    3430; 3558; 3664; 3792; 3872; 4160; 4240; 6112; 6160; 6470; 6608; 6784;
    6800; 6992; 7088; 7232; 7248; 42528; 43216; 43264; 43472; 43504; 43600;
    44016; 65296; 66720; 68912; 69734; 69872; 69942; 70096; 70384; 70736;
    70864; 71248; 71360; 71472; 71904; 72016; 72784; 73040; 73120; 92768;
    92864; 93008; 120782; 120792; 120802; 120812; 120822; 123200; 123632;
    125264; 130032 ]%N.

(** The decimal value of a code point, when it is a decimal digit. *)
Definition unicode_decimal (cp : N) : option N :=
  match find (fun zero => (zero <=? cp) && (cp <? zero + 10))%N DECIMAL_ZEROS with
  | Some zero => Some (cp - zero)%N
  | None => None
  end.

Definition to_ascii_char (cp : N) : option ascii :=
  if (cp <? 127)%N then Some (ascii_of_N cp)
  else if unicode_isspace cp then Some " "%char
  else match unicode_decimal cp with
       | Some d => Some (ascii_of_N (48 + d))
       | None => None
       end.

(** The characters the rewriting keeps as they are. *)
Definition is_plain (c : ascii) : bool := (N_of_ascii c <? 127)%N.

Fixpoint transform_decimal_and_space (cps : list N) : option (list ascii) :=
  match cps with
  | [] => Some []
  | cp :: rest =>
      match to_ascii_char cp, transform_decimal_and_space rest with
      | Some c, Some cs => Some (c :: cs)
      | _, _ => None
      end
  end.

Definition is_space (c : ascii) : bool :=
  let n := N_of_ascii c in
  (((9 <=? n) && (n <=? 13)) || (n =? 32))%N.

Definition is_digit (c : ascii) : bool :=
  let n := N_of_ascii c in
  ((48 <=? n) && (n <=? 57))%N.

Definition digit_value (c : ascii) : Z := Z.of_N (N_of_ascii c) - 48.

Fixpoint skip_spaces (cs : list ascii) : list ascii :=
  match cs with
  | [] => []
  | c :: rest => if is_space c then skip_spaces rest else cs
  end.

(** [after_digit] records whether the character just read was a digit:
    an underscore is legal only then, and so is the end of the number. *)
Fixpoint parse_digits (acc : Z) (after_digit : bool) (cs : list ascii) : option Z :=
  match cs with
  | [] => if after_digit then Some acc else None
  | c :: rest =>
      if is_digit c then parse_digits (10 * acc + digit_value c) true rest
      else if Ascii.eqb c "_" then
        (if after_digit then parse_digits acc false rest else None)
      else if after_digit then
        match skip_spaces cs with
        | [] => Some acc
        | _ :: _ => None
        end
      else None
  end.

(** The numeral reader, on the rewritten text. *)
Definition int_of_ascii (cs : list ascii) : option Z :=
  match skip_spaces cs with
  | "-"%char :: rest => option_map Z.opp (parse_digits 0 false rest)
  | "+"%char :: rest => parse_digits 0 false rest
  | cs' => parse_digits 0 false cs'
  end.

Definition int_of_str (s : string) : option Z :=
  match utf8_decode (list_ascii_of_string s) with
  | Some cps =>
      match transform_decimal_and_space cps with
      | Some cs => int_of_ascii cs
      | None => None
      end
  | None => None
  end.

(** [int(v)] *)
Definition py_int (v : pyval) : result Z :=
  match v with
  | PInt n => Ok n
  | PBool b => Ok (Z.b2z b)
  | PStr s =>
      match int_of_str s with
      | Some n => Ok n
      | None => Raise ValueError
      end
  | PNone | PDatetime _ | PDict _ => Raise TypeError
  end.

(** *** [str(n)] on an integer: decimal digits, most significant first *)

Definition digit_char (d : Z) : ascii := ascii_of_N (Z.to_N (48 + d)).

Fixpoint digits_of (fuel : nat) (n : Z) (acc : list ascii) : list ascii :=
  match fuel with
  | O => acc
  | S fuel' =>
      let acc' := digit_char (n mod 10) :: acc in
      if n <? 10 then acc' else digits_of fuel' (n / 10) acc'
  end.

(** A non-negative [n] has at most [log2 n + 1] decimal digits. *)
Definition str_of_nonneg (n : Z) : list ascii :=
  digits_of (S (Z.to_nat (Z.log2 n))) n [].

Definition str_of_int (n : Z) : string :=
  if n <? 0 then String "-" (string_of_list_ascii (str_of_nonneg (- n)))
  else string_of_list_ascii (str_of_nonneg n).

(** *** [datetime] arithmetic *)

Definition MICROSECONDS_PER_DAY : Z := 86400000000.

(** [now - v] for an aware datetime [now]: a [timedelta], kept in
    microseconds; anything but a datetime on the right raises. *)
Definition datetime_sub (now : Z) (v : pyval) : result Z :=
  match v with
  | PDatetime t => Ok (now - t)
  | _ => Raise TypeError
  end.

(** [td.days]: a [timedelta] is normalised with [0 <= seconds < 86400], so
    its day count is the floor of the quotient. *)
Definition timedelta_days (td : Z) : Z := td / MICROSECONDS_PER_DAY.

End Py.

Import Py.

(** ** The rule *)

(** rdklib's [ComplianceType] and the arguments an [Evaluation] is built
    from; [annotation] is [None] when the keyword is not passed. *)
Inductive ComplianceType : Type :=
| COMPLIANT
| NON_COMPLIANT
| NOT_APPLICABLE.

Record Evaluation : Type := mkEvaluation {
  complianceType : ComplianceType;
  complianceResourceId : pyval;
  complianceResourceType : string;
  annotation : option string
}.

(** The clock of the host, and how often it has been read. *)
Record world : Type := mkWorld {
  wall_clock : Z;
  clock_samples : nat
}.

(** [datetime.now(timezone.utc)] *)
Definition datetime_now (w : world) : Z * world :=
  (wall_clock w, {| wall_clock := wall_clock w; clock_samples := S (clock_samples w) |}).

(** The passing of time between two calls into the process. *)
Definition elapse (us : Z) (w : world) : world :=
  {| wall_clock := wall_clock w + us; clock_samples := clock_samples w |}.

Module IAM_ROLE_NOT_USED.

Definition DEFAULT_DAYS : Z := 90.
Definition APPLICABLE_RESOURCES : list string := ["AWS::IAM::Role"%string].

(** The two messages of [InvalidParametersError]; each quotes the
    parameter name with the double-quote character (code 34). *)
Definition DQUOTE : ascii := ascii_of_nat 34.

Definition quoted (s : string) : string :=
  String DQUOTE (String.append s (String DQUOTE EmptyString)).

Definition NOT_INTEGER_MESSAGE : string :=
  String.append "The parameter "
    (String.append (quoted "DaysBeforeUnused") " must be a integer").

Definition NEGATIVE_MESSAGE : string :=
  String.append "The parameter "
    (String.append (quoted "DaysBeforeUnused") " must be greater than or equal to 0").

(** The module-level state: [CURRENT_TIME] is assigned by the statement
    [CURRENT_TIME = datetime.now(timezone.utc)], executed when the module is
    imported. *)
Record module_globals : Type := mkGlobals {
  CURRENT_TIME : Z
}.

Definition load_module (w : world) : module_globals * world :=
  let (now, w') := datetime_now w in
  ({| CURRENT_TIME := now |}, w').

(** [rule_parameters] is one dictionary object, written in place and
    returned: the first component is its content when the call ends, the
    second says whether the call returned (the object itself) or raised. *)
Definition evaluate_parameters (rule_parameters : gmap string pyval)
  : gmap string pyval * result unit :=
  let rule_parameters1 :=
    if negb (truthy (dict_get rule_parameters "DaysBeforeUnused"))
    then <["DaysBeforeUnused"%string := PInt DEFAULT_DAYS]> rule_parameters
    else rule_parameters in
  match (let* v := dict_getitem rule_parameters1 "DaysBeforeUnused" in py_int v) with
  | inl ValueError =>
      (rule_parameters1,
       Raise (InvalidParametersError NOT_INTEGER_MESSAGE))
  | inl e => (rule_parameters1, Raise e)
  | inr n =>
      let rule_parameters2 := <["DaysBeforeUnused"%string := PInt n]> rule_parameters1 in
      if n <? 0 then
        (rule_parameters2,
         Raise (InvalidParametersError NEGATIVE_MESSAGE))
      else (rule_parameters2, Ok tt)
  end.

(** One page of the [list_roles] paginator: its ['Roles'] entry. *)
Record page : Type := mkPage {
  Roles : list (gmap string pyval)
}.

(** [get_roles]: the pages are drained into one list ([roles.extend]); the
    pause of [IAM_THROTTLE_PERIOD] seconds after each page changes nothing
    that is returned. *)
Fixpoint get_roles_loop (page_iterator : list page) (roles : list (gmap string pyval))
  : list (gmap string pyval) :=
  match page_iterator with
  | [] => roles
  | p :: rest => get_roles_loop rest (roles ++ Roles p)
  end.

Definition get_roles (page_iterator : list page) : list (gmap string pyval) :=
  get_roles_loop page_iterator [].

Definition ANNOTATION_PREFIX : string :=
  "This AWS IAM Role has not been used within the last ".
Definition ANNOTATION_SUFFIX : string := " day(s)".

(** ["This AWS IAM Role ... last {} day(s)".format(shown)] *)
Definition format_annotation (shown : string) : string :=
  String.append ANNOTATION_PREFIX (String.append shown ANNOTATION_SUFFIX).

(** [Evaluation(compliance, role_name, APPLICABLE_RESOURCES[0], ...)] *)
Definition finding (compliance : ComplianceType) (role_name : pyval)
    (annotation : option string) : result Evaluation :=
  let* resource_type := list_getitem APPLICABLE_RESOURCES 0 in
  Ok (mkEvaluation compliance role_name resource_type annotation).

(** The two branches that assign [diff]: the whole days between
    [CURRENT_TIME] and the last use when [RoleLastUsed] is truthy, and
    between [CURRENT_TIME] and the creation otherwise. *)
Definition role_diff (g : module_globals) (role_data : gmap string pyval) : result Z :=
  let last_used := dict_get role_data "RoleLastUsed" in
  if truthy last_used then
    let* last_used_date := py_get last_used "LastUsedDate" in
    let* td := datetime_sub (CURRENT_TIME g) last_used_date in
    Ok (timedelta_days td)
  else
    let created_on := dict_get role_data "CreateDate" in
    let* td := datetime_sub (CURRENT_TIME g) created_on in
    Ok (timedelta_days td).

(** The body of the [for] loop of [evaluate_periodic], for one
    [role_data].  [diff <= days_before_unused] compares an [int] with
    whatever the parameter dictionary holds: it raises [TypeError] unless
    that is an [int] or a [bool], and [format] then prints the same value. *)
Definition evaluate_role (g : module_globals)
    (valid_rule_parameters role_data : gmap string pyval) : result Evaluation :=
  let role_name := dict_get role_data "RoleName" in
  let* diff := role_diff g role_data in
  let days_before_unused := dict_get valid_rule_parameters "DaysBeforeUnused" in
  match days_before_unused with
  | PInt d =>
      if diff <=? d then finding COMPLIANT role_name None
      else finding NON_COMPLIANT role_name (Some (format_annotation (str_of_int d)))
  | PBool b =>
      if diff <=? Z.b2z b then finding COMPLIANT role_name None
      else finding NON_COMPLIANT role_name
             (Some (format_annotation (if b then "True" else "False")))
  | PNone | PStr _ | PDatetime _ | PDict _ => Raise TypeError
  end.

(** The loop itself: the first role that raises ends the call, otherwise
    each finding is appended to [evaluations]. *)
Fixpoint evaluate_roles (g : module_globals) (valid_rule_parameters : gmap string pyval)
    (roles : list (gmap string pyval)) (evaluations : list Evaluation)
  : result (list Evaluation) :=
  match roles with
  | [] => Ok evaluations
  | role_data :: rest =>
      let* e := evaluate_role g valid_rule_parameters role_data in
      evaluate_roles g valid_rule_parameters rest (evaluations ++ [e])
  end.

(** [page_iterator] is what the IAM client built by [client_factory]
    pages out; [event] is not read. *)
Definition evaluate_periodic (g : module_globals) (page_iterator : list page)
    (valid_rule_parameters : gmap string pyval) : result (list Evaluation) :=
  evaluate_roles g valid_rule_parameters (get_roles page_iterator) [].

(** One evaluation run inside a loaded process.  No statement reached from
    [evaluate_periodic] calls [datetime.now], so the host clock is neither
    read nor counted. *)
Definition run_periodic (g : module_globals) (page_iterator : list page)
    (valid_rule_parameters : gmap string pyval) (w : world)
  : result (list Evaluation) * world :=
  (evaluate_periodic g page_iterator valid_rule_parameters, w).

End IAM_ROLE_NOT_USED.

Import IAM_ROLE_NOT_USED.

(** ** Vocabulary of the specification

    The (possibly default-substituted) value of section 4.1: the entry of
    the map, or the default that replaces a missing or falsy one. *)
Definition substituted_value (rule_parameters : gmap string pyval) : pyval :=
  if truthy (dict_get rule_parameters "DaysBeforeUnused")
  then dict_get rule_parameters "DaysBeforeUnused"
  else PInt DEFAULT_DAYS.

(** The RoleRecord of section 3, as boto3 delivers it: a last-used
    timestamp is the [LastUsedDate] of the [RoleLastUsed] dictionary; a role
    never assumed has no [RoleLastUsed], or an empty one; the creation
    timestamp is [CreateDate]. *)
Definition has_last_used (role_data : gmap string pyval) (t : Z) : Prop :=
  exists last_used : gmap string pyval,
    role_data !! "RoleLastUsed"%string = Some (PDict last_used)
    /\ last_used !! "LastUsedDate"%string = Some (PDatetime t).

Definition never_used (role_data : gmap string pyval) : Prop :=
  role_data !! "RoleLastUsed"%string = None
  \/ role_data !! "RoleLastUsed"%string = Some (PDict ∅).

Definition created_on (role_data : gmap string pyval) (t : Z) : Prop :=
  role_data !! "CreateDate"%string = Some (PDatetime t).

(** The reference instant of section 4.2: the last use, or the creation
    when the role has never been used. *)
Definition reference_instant (role_data : gmap string pyval) (t : Z) : Prop :=
  has_last_used role_data t \/ (never_used role_data /\ created_on role_data t).

Definition well_formed_role (role_data : gmap string pyval) : Prop :=
  exists t, reference_instant role_data t.

(** [age] is the floor of the microsecond span [td] in days. *)
Definition whole_days (td age : Z) : Prop :=
  age * MICROSECONDS_PER_DAY <= td < (age + 1) * MICROSECONDS_PER_DAY.

(** ** Concrete records and runs, after the scenarios of
    [IAM_ROLE_NOT_USED_test.py], at a fixed clock reading *)

Module Scenarios.

Definition DAY : Z := MICROSECONDS_PER_DAY.
Definition NOW : Z := 1700000000000000.
Definition loaded : module_globals := {| CURRENT_TIME := NOW |}.

Definition threshold (d : Z) : gmap string pyval :=
  {[ "DaysBeforeUnused"%string := PInt d ]}.

Definition role_in_use : gmap string pyval :=
  {[ "RoleName"%string := PStr "config-rule";
     "RoleLastUsed"%string := PDict {[ "LastUsedDate"%string := PDatetime NOW ]} ]}.

Definition role_unused : gmap string pyval :=
  {[ "RoleName"%string := PStr "AWS-CodePipeline-Service";
     "RoleLastUsed"%string :=
       PDict {[ "LastUsedDate"%string := PDatetime (NOW - 100 * DAY) ]} ]}.

(** Last used 80 days and 5 seconds ago: 80 whole days. *)
Definition role_on_boundary : gmap string pyval :=
  {[ "RoleName"%string := PStr "on-boundary";
     "RoleLastUsed"%string :=
       PDict {[ "LastUsedDate"%string := PDatetime (NOW - 80 * DAY - 5000000);
                "Region"%string := PStr "us-east-1" ]} ]}.

Definition role_never_used : gmap string pyval :=
  {[ "RoleName"%string := PStr "never-used";
     "CreateDate"%string := PDatetime (NOW - 100 * DAY) ]}.

Definition role_empty_last_used : gmap string pyval :=
  {[ "RoleName"%string := PStr "never-used";
     "RoleLastUsed"%string := PDict ∅;
     "CreateDate"%string := PDatetime (NOW - 100 * DAY) ]}.

Definition empty_value_and_other : gmap string pyval :=
  {[ "DaysBeforeUnused"%string := PStr EmptyString; "Other"%string := PStr "kept" ]}.

Definition seven_and_other : gmap string pyval :=
  {[ "DaysBeforeUnused"%string := PStr "7"; "Other"%string := PStr "kept" ]}.

(** The tests build [LastUsedDate] from a clock read after the import. *)
Definition role_used_after_import : gmap string pyval :=
  {[ "RoleName"%string := PStr "config-rule";
     "RoleLastUsed"%string := PDict {[ "LastUsedDate"%string := PDatetime (NOW + 1000000) ]} ]}.

Definition two_pages : list page :=
  [ mkPage [role_in_use; role_unused]; mkPage [role_never_used] ].

(** A process imported 100 days before [NOW] and still serving at [NOW]. *)
Definition at_import : world := {| wall_clock := NOW - 100 * DAY; clock_samples := 0 |}.
Definition old_process : module_globals := fst (load_module at_import).
Definition at_run : world := elapse (100 * DAY) (snd (load_module at_import)).
Definition new_process : module_globals := fst (load_module at_run).

End Scenarios.

(** ** Records and parameter maps off the happy path *)

Module EdgeCases.

(** [RoleLastUsed] holds a region but no date; the role has a creation date. *)
Definition role_region_only : gmap string pyval :=
  {[ "RoleName"%string := PStr "region-only";
     "RoleLastUsed"%string := PDict {[ "Region"%string := PStr "us-east-1" ]};
     "CreateDate"%string := PDatetime (Scenarios.NOW - 100 * Scenarios.DAY) ]}.

Definition role_without_dates : gmap string pyval :=
  {[ "RoleName"%string := PStr "no-dates" ]}.

(** A record with the further fields [list_roles] returns. *)
Definition role_with_arn : gmap string pyval :=
  <[ "Arn"%string := PStr "arn:aws:iam::123456789012:role/config-rule" ]>
    (<[ "Path"%string := PStr "/" ]> Scenarios.role_in_use).

(** Parameter maps that did not go through [evaluate_parameters]. *)
Definition raw_threshold : gmap string pyval :=
  {[ "DaysBeforeUnused"%string := PStr "80" ]}.

Definition threshold_and_owner : gmap string pyval :=
  {[ "DaysBeforeUnused"%string := PInt 80; "Owner"%string := PStr "security" ]}.

Definition blank_threshold : gmap string pyval :=
  {[ "DaysBeforeUnused"%string := PStr "  " ]}.

Definition nested_threshold : gmap string pyval :=
  {[ "DaysBeforeUnused"%string := PDict {[ "days"%string := PInt 80 ]} ]}.

(** A listing whose second role cannot be dated. *)
Definition pages_with_undated_role : list page :=
  [ mkPage [Scenarios.role_in_use; role_without_dates]; mkPage [Scenarios.role_unused] ].

End EdgeCases.

Local Abbreviation DBU := ("DaysBeforeUnused"%string).

(** Case analysis on a decimal digit [d], given [H : 0 <= d < 10]. *)
Ltac each_digit d H :=
  let C := fresh "C" in
  assert (C : d = 0 \/ d = 1 \/ d = 2 \/ d = 3 \/ d = 4
              \/ d = 5 \/ d = 6 \/ d = 7 \/ d = 8 \/ d = 9) by lia;
  clear H;
  destruct C as [-> | [-> | [-> | [-> | [-> | [-> | [-> | [-> | [-> | ->]]]]]]]]].

(** ** [str] and [int] are inverse on integers *)

Section Decimal.

Lemma parse_digits_cons_digit (d acc : Z) (b : bool) (rest : list ascii) :
  0 <= d < 10 ->
  parse_digits acc b (digit_char d :: rest) = parse_digits (10 * acc + d) true rest.
Proof. intros H. each_digit d H; reflexivity. Qed.

Lemma digits_of_S (f : nat) (n : Z) (acc : list ascii) :
  digits_of (S f) n acc =
  if n <? 10 then digit_char (n mod 10) :: acc
  else digits_of f (n / 10) (digit_char (n mod 10) :: acc).
Proof. reflexivity. Qed.

Lemma digits_of_head (f : nat) :
  forall (n : Z) (acc : list ascii),
    exists d tl, 0 <= d < 10 /\ digits_of (S f) n acc = digit_char d :: tl.
Proof.
  induction f as [| f IH]; intros n acc; rewrite digits_of_S.
  - exists (n mod 10), acc. split; [apply Z.mod_pos_bound; lia |].
    destruct (n <? 10); reflexivity.
  - destruct (n <? 10).
    + exists (n mod 10), acc. split; [apply Z.mod_pos_bound; lia | reflexivity].
    + apply IH.
Qed.

Lemma parse_digits_digits_of (f : nat) :
  forall (n : Z) (b : bool) (rest : list ascii),
    0 <= n < 2 ^ Z.of_nat (S f) ->
    parse_digits 0 b (digits_of (S f) n rest) = parse_digits n true rest.
Proof.
  induction f as [| f IH]; intros n b rest Hn; rewrite digits_of_S.
  - change (2 ^ Z.of_nat 1) with 2 in Hn.
    assert (Hlt : (n <? 10) = true) by (apply Z.ltb_lt; lia).
    rewrite Hlt, parse_digits_cons_digit by (apply Z.mod_pos_bound; lia).
    f_equal. rewrite Z.mod_small; lia.
  - destruct (Z.ltb_spec n 10) as [Hlt | Hge].
    + rewrite parse_digits_cons_digit by (apply Z.mod_pos_bound; lia).
      f_equal. rewrite Z.mod_small; lia.
    + rewrite IH.
      * rewrite parse_digits_cons_digit by (apply Z.mod_pos_bound; lia).
        f_equal. pose proof (Z.div_mod n 10). lia.
      * split; [apply Z.div_pos; lia |].
        apply Z.div_lt_upper_bound; [lia |].
        rewrite (Nat2Z.inj_succ (S f)), Z.pow_succ_r in Hn by lia. lia.
Qed.

Lemma log2_fuel (n : Z) : 0 <= n -> 0 <= n < 2 ^ Z.of_nat (S (Z.to_nat (Z.log2 n))).
Proof.
  intros Hn. split; [assumption |].
  rewrite Nat2Z.inj_succ, Z2Nat.id by apply Z.log2_nonneg.
  destruct (Z.eq_dec n 0) as [-> | Hne]; [reflexivity |].
  apply Z.log2_spec. lia.
Qed.

Lemma parse_str_of_nonneg (n : Z) (b : bool) :
  0 <= n -> parse_digits 0 b (str_of_nonneg n) = Some n.
Proof.
  intros Hn. unfold str_of_nonneg.
  rewrite parse_digits_digits_of by (apply log2_fuel; assumption).
  reflexivity.
Qed.

Lemma str_of_nonneg_head (n : Z) :
  exists d tl, 0 <= d < 10 /\ str_of_nonneg n = digit_char d :: tl.
Proof. apply digits_of_head. Qed.

(** A text of plain characters is its own rewriting: on it, [int] is the
    numeral reader. *)
Lemma utf8_decode_plain (cs : list ascii) :
  forallb is_plain cs = true -> utf8_decode cs = Some (map N_of_ascii cs).
Proof.
  induction cs as [| c cs IH]; [reflexivity |].
  intros [Hc Hcs]%andb_prop. cbn [utf8_decode map].
  assert (Hlt : (N_of_ascii c <? 128)%N = true).
  { unfold is_plain in Hc. apply N.ltb_lt in Hc. apply N.ltb_lt. lia. }
  by rewrite Hlt, (IH Hcs).
Qed.

Lemma transform_plain (cs : list ascii) :
  forallb is_plain cs = true ->
  transform_decimal_and_space (map N_of_ascii cs) = Some cs.
Proof.
  induction cs as [| c cs IH]; [reflexivity |].
  intros [Hc Hcs]%andb_prop. cbn [transform_decimal_and_space map].
  unfold to_ascii_char. unfold is_plain in Hc.
  by rewrite Hc, (IH Hcs), ascii_N_embedding.
Qed.

Lemma int_of_str_plain (cs : list ascii) :
  forallb is_plain cs = true ->
  int_of_str (string_of_list_ascii cs) = int_of_ascii cs.
Proof.
  intros H. unfold int_of_str.
  by rewrite list_ascii_of_string_of_list_ascii, (utf8_decode_plain _ H),
    (transform_plain _ H).
Qed.

Lemma digit_char_plain (d : Z) : 0 <= d < 10 -> is_plain (digit_char d) = true.
Proof. intros H. each_digit d H; reflexivity. Qed.

Lemma digits_of_plain (f : nat) :
  forall (n : Z) (acc : list ascii),
    forallb is_plain acc = true -> forallb is_plain (digits_of f n acc) = true.
Proof.
  induction f as [| f IH]; intros n acc Hacc; [exact Hacc |].
  rewrite digits_of_S.
  assert (Hcons : forallb is_plain (digit_char (n mod 10) :: acc) = true).
  { cbn [forallb]. rewrite digit_char_plain by (apply Z.mod_pos_bound; lia).
    exact Hacc. }
  destruct (n <? 10); [exact Hcons | by apply IH].
Qed.

Lemma str_of_nonneg_plain (n : Z) : forallb is_plain (str_of_nonneg n) = true.
Proof. by apply digits_of_plain. Qed.

Lemma int_of_ascii_digit_head (d : Z) (tl : list ascii) :
  0 <= d < 10 ->
  int_of_ascii (digit_char d :: tl) = parse_digits 0 false (digit_char d :: tl).
Proof. intros H. unfold int_of_ascii. each_digit d H; reflexivity. Qed.

(** Digits of other scripts count, and so do the blanks of Unicode:
    Arabic-Indic three and zero; a no-break space before fullwidth one and
    two; but not the minus sign U+2212. *)
Example int_of_arabic_indic_digits : int_of_str "٣٠" = Some 30.
Proof. reflexivity. Qed.

Example int_of_fullwidth_digits :
  int_of_str (String "194" (String "160" "１２")) = Some 12.
Proof. reflexivity. Qed.

Example int_of_unicode_minus : int_of_str "−5" = None.
Proof. reflexivity. Qed.

(** [int(str(n)) == n] for every integer. *)
Lemma int_of_str_str_of_int (n : Z) : int_of_str (str_of_int n) = Some n.
Proof.
  unfold str_of_int. destruct (Z.ltb_spec n 0) as [Hneg | Hpos].
  - change (String "-" (string_of_list_ascii (str_of_nonneg (- n))))
      with (string_of_list_ascii ("-"%char :: str_of_nonneg (- n))).
    rewrite int_of_str_plain
      by (cbn [forallb]; by rewrite str_of_nonneg_plain).
    unfold int_of_ascii.
    change (skip_spaces ("-"%char :: str_of_nonneg (- n)))
      with ("-"%char :: str_of_nonneg (- n)).
    cbv iota beta.
    rewrite parse_str_of_nonneg by lia. cbn. f_equal. lia.
  - rewrite int_of_str_plain by apply str_of_nonneg_plain.
    destruct (str_of_nonneg_head n) as (d & tl & Hd & Heq).
    rewrite Heq, int_of_ascii_digit_head, <- Heq by assumption.
    apply parse_str_of_nonneg. assumption.
Qed.

(** [str(n)] is never the empty string, so it is truthy. *)
Lemma truthy_str_of_int (n : Z) : truthy (PStr (str_of_int n)) = true.
Proof.
  unfold str_of_int. destruct (n <? 0); [reflexivity |].
  destruct (str_of_nonneg_head n) as (d & tl & _ & ->). reflexivity.
Qed.

End Decimal.

(** ** Parameter validation *)

Section Validation.

Implicit Types (m : gmap string pyval) (v : pyval) (n : Z).

Lemma dict_get_insert_eq m (k : string) v : dict_get (<[k := v]> m) k = v.
Proof. unfold dict_get. by rewrite lookup_insert_eq. Qed.

Lemma dict_getitem_insert_eq m (k : string) v :
  dict_getitem (<[k := v]> m) k = Ok v.
Proof. unfold dict_getitem. by rewrite lookup_insert_eq. Qed.

(** A truthy entry is an entry: [get] did not make it up. *)
Lemma truthy_dict_get m (k : string) :
  truthy (dict_get m k) = true -> m !! k = Some (dict_get m k).
Proof. unfold dict_get. destruct (m !! k); [reflexivity | discriminate]. Qed.

Lemma dict_getitem_truthy m (k : string) :
  truthy (dict_get m k) = true -> dict_getitem m k = Ok (dict_get m k).
Proof.
  intros H. unfold dict_getitem. by rewrite (truthy_dict_get _ _ H).
Qed.

(** What the call does, by the outcome of [int] on the substituted value. *)
Lemma evaluate_parameters_falsy m :
  truthy (dict_get m DBU) = false ->
  evaluate_parameters m = (<[DBU := PInt DEFAULT_DAYS]> m, Ok tt).
Proof.
  intros H. unfold evaluate_parameters. rewrite H. cbn [negb].
  rewrite dict_getitem_insert_eq. cbn. by rewrite insert_insert_eq.
Qed.

Lemma evaluate_parameters_truthy m :
  truthy (dict_get m DBU) = true ->
  evaluate_parameters m =
  match py_int (dict_get m DBU) with
  | inl ValueError => (m, Raise (InvalidParametersError NOT_INTEGER_MESSAGE))
  | inl e => (m, Raise e)
  | inr n =>
      if n <? 0
      then (<[DBU := PInt n]> m, Raise (InvalidParametersError NEGATIVE_MESSAGE))
      else (<[DBU := PInt n]> m, Ok tt)
  end.
Proof.
  intros H. unfold evaluate_parameters. rewrite H. cbn [negb].
  rewrite (dict_getitem_truthy _ _ H). reflexivity.
Qed.

Lemma evaluate_parameters_cases m :
  evaluate_parameters m =
  match py_int (substituted_value m) with
  | inl ValueError => (m, Raise (InvalidParametersError NOT_INTEGER_MESSAGE))
  | inl e => (m, Raise e)
  | inr n =>
      if n <? 0
      then (<[DBU := PInt n]> m, Raise (InvalidParametersError NEGATIVE_MESSAGE))
      else (<[DBU := PInt n]> m, Ok tt)
  end.
Proof.
  unfold substituted_value.
  destruct (truthy (dict_get m DBU)) eqn:H.
  - by apply evaluate_parameters_truthy.
  - by rewrite evaluate_parameters_falsy.
Qed.

(** [int] raises nothing but [ValueError] and [TypeError], and the former
    only on a string. *)
Lemma py_int_raises v (e : exn) :
  py_int v = Raise e -> e = ValueError \/ e = TypeError.
Proof.
  destruct v; cbn; try (intros [= <-]; auto; fail); try discriminate.
  destruct (int_of_str s); [discriminate | intros [= <-]; auto].
Qed.

(** On a string, the value type of the raw parameter map, validation
    returns or fails with [InvalidParametersError]: nothing else escapes. *)
Lemma string_parameter_returns_or_invalid m (s : string) :
  m !! DBU = Some (PStr s) ->
  snd (evaluate_parameters m) = Ok tt
  \/ exists msg, snd (evaluate_parameters m) = Raise (InvalidParametersError msg).
Proof.
  intros Hs. rewrite evaluate_parameters_cases. unfold substituted_value, dict_get.
  rewrite Hs. destruct (truthy (PStr s)); cbn.
  - destruct (int_of_str s) as [n |]; [destruct (n <? 0) |]; cbn; eauto.
  - eauto.
Qed.

(** The two messages differ, so an error tells the two failures apart. *)
Lemma messages_differ : NOT_INTEGER_MESSAGE <> NEGATIVE_MESSAGE.
Proof. discriminate. Qed.

(** A configuration that validation returned holds a non-negative [int]. *)
Lemma evaluate_parameters_returns m m' :
  evaluate_parameters m = (m', Ok tt) ->
  exists n, 0 <= n /\ m' !! DBU = Some (PInt n).
Proof.
  rewrite evaluate_parameters_cases.
  destruct (py_int (substituted_value m)) as [[] | n]; try discriminate.
  destruct (Z.ltb_spec n 0); [discriminate |].
  intros [= <-]. exists n. split; [assumption | apply lookup_insert_eq].
Qed.

(** C4. When the [DaysBeforeUnused] key is absent from the raw parameter
    map, or its value is falsy, validation substitutes the default 90: the
    call returns, and the configuration it returns is the map with
    [DaysBeforeUnused] set to the integer 90. *)
Theorem default_substituted_when_absent_or_falsy m :
  (m !! DBU = None \/ exists v, m !! DBU = Some v /\ truthy v = false) ->
  evaluate_parameters m = (<[DBU := PInt 90]> m, Ok tt)
  /\ fst (evaluate_parameters m) !! DBU = Some (PInt 90).
Proof.
  intros H.
  assert (Hfalsy : truthy (dict_get m DBU) = false).
  { unfold dict_get. destruct H as [-> | (v & -> & Hv)]; [reflexivity | assumption]. }
  rewrite (evaluate_parameters_falsy _ Hfalsy).
  split; [reflexivity | apply lookup_insert_eq].
Qed.

Lemma default_substituted_witness :
  (exists v, Scenarios.empty_value_and_other !! DBU = Some v /\ truthy v = false)
  /\ fst (evaluate_parameters Scenarios.empty_value_and_other) !! DBU = Some (PInt 90)
  /\ fst (evaluate_parameters ∅) !! DBU = Some (PInt 90).
Proof.
  split; [exists (PStr EmptyString); split; reflexivity |]. split.
  - apply (default_substituted_when_absent_or_falsy Scenarios.empty_value_and_other).
    right. exists (PStr EmptyString). split; reflexivity.
  - apply (default_substituted_when_absent_or_falsy ∅). left. reflexivity.
Defined.

(** C5. For every non-negative integer [N], validating the map
    [{"DaysBeforeUnused": str(N)}] returns, with [DaysBeforeUnused] equal to
    the integer [N].  The string ["0"] is [str(0)]: it is truthy, so it is
    kept and validated as 0 and not replaced by the default 90. *)
Theorem decimal_string_accepted (N : Z) :
  0 <= N ->
  evaluate_parameters {[ DBU := PStr (str_of_int N) ]} = ({[ DBU := PInt N ]}, Ok tt).
Proof.
  intros HN.
  rewrite evaluate_parameters_truthy;
    rewrite <- insert_empty, dict_get_insert_eq; [| apply truthy_str_of_int].
  cbn [py_int]. rewrite int_of_str_str_of_int.
  destruct (Z.ltb_spec N 0); [lia |].
  by rewrite insert_insert_eq.
Qed.

Lemma decimal_string_accepted_witness :
  0 <= 0
  /\ evaluate_parameters {[ DBU := PStr "0" ]} = ({[ DBU := PInt 0 ]}, Ok tt)
  /\ evaluate_parameters {[ DBU := PStr "90" ]} = ({[ DBU := PInt 90 ]}, Ok tt).
Proof.
  split; [lia |]. split.
  - apply (decimal_string_accepted 0). lia.
  - apply (decimal_string_accepted 90). lia.
Defined.

(** The messages, character by character; ["034"] is the double quote. *)
Lemma not_integer_message_text :
  NOT_INTEGER_MESSAGE
  = String.append "The parameter "
      (String "034" (String.append "DaysBeforeUnused"
                       (String "034" " must be a integer"))).
Proof. reflexivity. Qed.

Lemma negative_message_text :
  NEGATIVE_MESSAGE
  = String.append "The parameter "
      (String "034" (String.append "DaysBeforeUnused"
                       (String "034" " must be greater than or equal to 0"))).
Proof. reflexivity. Qed.

(** C6. Validation fails with [InvalidParametersError] exactly when the
    (possibly default-substituted) value is not parseable as an integer
    ([int] raises [ValueError] on it) or parses to a negative integer.  In
    the first case the message is [The parameter "DaysBeforeUnused" must be
    a integer], in the second [The parameter "DaysBeforeUnused" must be
    greater than or equal to 0], character for character.  On the raw maps
    of the contract, whose entry is absent or a string, validation fails in
    no other way. *)
Theorem invalid_parameters_iff m (msg : string) :
  (snd (evaluate_parameters m) = Raise (InvalidParametersError msg)
   <->
   (py_int (substituted_value m) = Raise ValueError
    /\ msg = String.append "The parameter "
               (String "034" (String.append "DaysBeforeUnused"
                                (String "034" " must be a integer"))))
   \/ (exists n,
         py_int (substituted_value m) = Ok n /\ n < 0
         /\ msg = String.append "The parameter "
                    (String "034"
                       (String.append "DaysBeforeUnused"
                          (String "034" " must be greater than or equal to 0")))))
  /\ ((m !! DBU = None \/ exists s : string, m !! DBU = Some (PStr s)) ->
      snd (evaluate_parameters m) = Ok tt
      \/ exists msg', snd (evaluate_parameters m) = Raise (InvalidParametersError msg')).
Proof.
  split.
  - rewrite <- not_integer_message_text, <- negative_message_text.
    rewrite evaluate_parameters_cases.
    destruct (py_int (substituted_value m)) as [e | n] eqn:Hint.
    + destruct (py_int_raises _ _ Hint) as [-> | ->]; cbn; split.
      * intros [= <-]. left. split; reflexivity.
      * intros [[_ ->] | (n & [=] & _)]. reflexivity.
      * intros [=].
      * intros [[[=] _] | (n & [=] & _)].
    + destruct (Z.ltb_spec n 0) as [Hneg | Hpos]; cbn; split.
      * intros [= <-]. right. exists n. repeat split; assumption || reflexivity.
      * intros [[[=] _] | (n' & [= <-] & _ & ->)]. reflexivity.
      * intros [=].
      * intros [[[=] _] | (n' & [= <-] & Hlt & _)]. lia.
  - intros [Hnone | [s Hs]].
    + left. rewrite evaluate_parameters_falsy; [reflexivity |].
      unfold dict_get. by rewrite Hnone.
    + by apply (string_parameter_returns_or_invalid m s).
Qed.

Lemma invalid_parameters_witness :
  snd (evaluate_parameters {[ DBU := PStr "sdfsdf" ]})
  = Raise (InvalidParametersError
             (String.append "The parameter "
                (String "034" (String.append "DaysBeforeUnused"
                                 (String "034" " must be a integer")))))
  /\ snd (evaluate_parameters {[ DBU := PStr "-10" ]})
     = Raise (InvalidParametersError
                (String.append "The parameter "
                   (String "034"
                      (String.append "DaysBeforeUnused"
                         (String "034" " must be greater than or equal to 0")))))
  /\ (snd (evaluate_parameters {[ DBU := PStr "sdfsdf" ]}) = Ok tt
      \/ exists msg', snd (evaluate_parameters {[ DBU := PStr "sdfsdf" ]})
                      = Raise (InvalidParametersError msg')).
Proof.
  split; [| split].
  - apply (proj1 (invalid_parameters_iff {[ DBU := PStr "sdfsdf" ]} _)).
    left. split; reflexivity.
  - apply (proj1 (invalid_parameters_iff {[ DBU := PStr "-10" ]} _)).
    right. exists (-10). repeat split; reflexivity || lia.
  - apply (proj2 (invalid_parameters_iff {[ DBU := PStr "sdfsdf" ]} EmptyString)).
    right. exists "sdfsdf"%string. reflexivity.
Defined.

(** A non-zero [int] entry is its own substituted value. *)
Lemma substituted_value_nonzero_int m n :
  m !! DBU = Some (PInt n) -> n <> 0 -> substituted_value m = PInt n.
Proof.
  intros Hm Hn. unfold substituted_value, dict_get. rewrite Hm. cbn.
  by destruct (Z.eqb_spec n 0).
Qed.

(** C9, as the code has it.  Validation writes the map it is given, in
    place, and returns that same map: every entry other than
    [DaysBeforeUnused] is left as it was, whether the call returns or
    raises; when [int] produces an integer from the (possibly
    default-substituted) value, the [DaysBeforeUnused] entry is overwritten
    with that integer, also when it is then rejected as negative, and when
    [int] raises nothing is written; so the map is left wholly unchanged
    exactly when [int] itself raises or the entry already was a non-zero
    [int]. *)
Theorem validation_writes_only_its_key m :
  (forall k : string, k <> DBU -> fst (evaluate_parameters m) !! k = m !! k)
  /\ match py_int (substituted_value m) with
     | inr n => fst (evaluate_parameters m) = <[DBU := PInt n]> m
     | inl _ => fst (evaluate_parameters m) = m
     end
  /\ (fst (evaluate_parameters m) = m
      <-> (exists e, py_int (substituted_value m) = Raise e)
          \/ (exists n, m !! DBU = Some (PInt n) /\ n <> 0)).
Proof.
  assert (Hfinal : fst (evaluate_parameters m)
                   = match py_int (substituted_value m) with
                     | inr n => <[DBU := PInt n]> m
                     | inl _ => m
                     end).
  { rewrite evaluate_parameters_cases.
    destruct (py_int (substituted_value m)) as [[] | n]; try reflexivity.
    by destruct (n <? 0). }
  rewrite Hfinal. split; [| split].
  - intros k Hk. destruct (py_int (substituted_value m)); [reflexivity |].
    by rewrite lookup_insert_ne.
  - by destruct (py_int (substituted_value m)).
  - destruct (py_int (substituted_value m)) as [e | n] eqn:Hint; split.
    + intros _. left. by exists e.
    + reflexivity.
    + intros Heq. right. exists n.
      assert (Hm : m !! DBU = Some (PInt n))
        by (rewrite <- Heq; apply lookup_insert_eq).
      split; [exact Hm |]. intros ->.
      unfold substituted_value, dict_get in Hint. rewrite Hm in Hint.
      discriminate Hint.
    + intros [[e [=]] | (n' & Hm & Hn')].
      rewrite (substituted_value_nonzero_int _ _ Hm Hn') in Hint.
      injection Hint as <-. by apply insert_id.
Qed.

Lemma validation_writes_only_its_key_witness :
  "Other"%string <> DBU
  /\ fst (evaluate_parameters Scenarios.seven_and_other) !! "Other"%string
     = Some (PStr "kept")
  /\ fst (evaluate_parameters (Scenarios.threshold 80)) = Scenarios.threshold 80.
Proof.
  split; [discriminate |]. split.
  - rewrite (proj1 (validation_writes_only_its_key Scenarios.seven_and_other)
               "Other"%string); [reflexivity | discriminate].
  - apply (proj2 (proj2 (validation_writes_only_its_key (Scenarios.threshold 80)))).
    right. exists 80. split; [reflexivity | discriminate].
Defined.

(** C9, as the claim states it, fails: the empty map comes back holding
    the default (a call that returns), and [{"DaysBeforeUnused": "-10"}]
    holds the integer -10 when the call raises. *)
Lemma validation_mutates_its_argument :
  fst (evaluate_parameters ∅) <> ∅
  /\ snd (evaluate_parameters {[ DBU := PStr "-10" ]})
     = Raise (InvalidParametersError NEGATIVE_MESSAGE)
  /\ fst (evaluate_parameters {[ DBU := PStr "-10" ]}) <> {[ DBU := PStr "-10" ]}.
Proof.
  repeat split; try reflexivity; intros H;
    apply (f_equal (fun m : gmap string pyval => m !! DBU)) in H;
    discriminate H.
Qed.

End Validation.

(** ** The evaluator *)

Section Evaluator.

Implicit Types (g : module_globals) (r params : gmap string pyval) (t d age : Z).

Lemma get_roles_loop_concat (page_iterator : list page) :
  forall roles, get_roles_loop page_iterator roles = roles ++ concat (map Roles page_iterator).
Proof.
  induction page_iterator as [| p rest IH]; intros roles; cbn.
  - by rewrite app_nil_r.
  - by rewrite IH, app_assoc.
Qed.

(** The roles evaluated are those of the pages, in page order. *)
Lemma get_roles_concat (page_iterator : list page) :
  get_roles page_iterator = concat (map Roles page_iterator).
Proof. apply get_roles_loop_concat. Qed.

Lemma whole_days_timedelta td : whole_days td (timedelta_days td).
Proof.
  unfold whole_days, timedelta_days, MICROSECONDS_PER_DAY.
  pose proof (Z.div_mod td 86400000000).
  pose proof (Z.mod_pos_bound td 86400000000). lia.
Qed.

Lemma whole_days_unique td age : whole_days td age -> age = timedelta_days td.
Proof.
  unfold whole_days, timedelta_days, MICROSECONDS_PER_DAY. intros H.
  apply Z.div_unique with (r := td - age * 86400000000); lia.
Qed.

Lemma truthy_nonempty_dict (last_used : gmap string pyval) (k : string) v :
  last_used !! k = Some v -> truthy (PDict last_used) = true.
Proof.
  intros H. cbn. destruct (Nat.eqb_spec (size last_used) 0) as [Hz | Hnz]; [| reflexivity].
  apply map_size_empty_iff in Hz. subst. by rewrite lookup_empty in H.
Qed.

Lemma role_diff_last_used g r t :
  has_last_used r t -> role_diff g r = Ok (timedelta_days (CURRENT_TIME g - t)).
Proof.
  intros (last_used & Hr & Hl). unfold role_diff, dict_get. rewrite Hr.
  rewrite (truthy_nonempty_dict _ _ _ Hl). cbn. unfold dict_get. by rewrite Hl.
Qed.

Lemma role_diff_never_used g r :
  never_used r ->
  role_diff g r =
  (let* td := datetime_sub (CURRENT_TIME g) (dict_get r "CreateDate") in
   Ok (timedelta_days td)).
Proof.
  intros [Hr | Hr]; unfold role_diff; unfold dict_get at 1; rewrite Hr; reflexivity.
Qed.

Lemma role_diff_reference g r t :
  reference_instant r t -> role_diff g r = Ok (timedelta_days (CURRENT_TIME g - t)).
Proof.
  intros [Hused | [Hnever Hcreated]].
  - by apply role_diff_last_used.
  - rewrite (role_diff_never_used _ _ Hnever). unfold dict_get.
    unfold created_on in Hcreated. by rewrite Hcreated.
Qed.

(** With an [int] threshold the body of the loop is a comparison. *)
Lemma evaluate_role_int g params r d age :
  params !! DBU = Some (PInt d) ->
  role_diff g r = Ok age ->
  evaluate_role g params r =
  Ok (if age <=? d
      then mkEvaluation COMPLIANT (dict_get r "RoleName") "AWS::IAM::Role" None
      else mkEvaluation NON_COMPLIANT (dict_get r "RoleName") "AWS::IAM::Role"
             (Some (format_annotation (str_of_int d)))).
Proof.
  intros Hp Hd. unfold evaluate_role. rewrite Hd. cbn.
  unfold dict_get at 1. rewrite Hp. by destruct (age <=? d).
Qed.

(** The loop appends, in order, one finding per role, or raises. *)
Lemma evaluate_roles_spec g params (roles : list (gmap string pyval)) :
  forall evaluations evs,
    evaluate_roles g params roles evaluations = Ok evs <->
    exists es, evs = evaluations ++ es
               /\ Forall2 (fun r e => evaluate_role g params r = Ok e) roles es.
Proof.
  induction roles as [| r rest IH]; intros evaluations evs; cbn.
  - split.
    + intros [= <-]. exists []. split; [by rewrite app_nil_r | constructor].
    + intros (es & -> & Hes). inversion Hes. by rewrite app_nil_r.
  - destruct (evaluate_role g params r) as [err | e] eqn:He; cbn.
    + split; [discriminate |].
      intros (es & _ & Hes). inversion Hes; subst. congruence.
    + rewrite IH. split.
      * intros (es & -> & Hes). exists (e :: es).
        split; [by rewrite <- app_assoc | by constructor].
      * intros (es & -> & Hes). inversion Hes as [| ? e' ? es' He' Hes']; subst.
        assert (e' = e) as -> by congruence.
        exists es'. split; [by rewrite <- app_assoc | assumption].
Qed.

Lemma evaluate_periodic_spec g (page_iterator : list page) params evs :
  evaluate_periodic g page_iterator params = Ok evs <->
  Forall2 (fun r e => evaluate_role g params r = Ok e)
          (concat (map Roles page_iterator)) evs.
Proof.
  unfold evaluate_periodic. rewrite evaluate_roles_spec, get_roles_concat. cbn.
  split; [intros (es & -> & H); exact H | intros H; eauto].
Qed.

(** The expectations of the test file. *)
Example test_scenario1 : evaluate_parameters ∅ = ({[ DBU := PInt 90 ]}, Ok tt).
Proof. reflexivity. Qed.

Example test_scenario3 :
  evaluate_periodic Scenarios.loaded [mkPage [Scenarios.role_used_after_import]]
    (fst (evaluate_parameters {[ DBU := PStr "90" ]}))
  = Ok [mkEvaluation COMPLIANT (PStr "config-rule") "AWS::IAM::Role" None].
Proof. reflexivity. Qed.

Example test_scenario4 :
  evaluate_periodic Scenarios.loaded [mkPage [Scenarios.role_unused]]
    (fst (evaluate_parameters {[ DBU := PStr "80" ]}))
  = Ok [mkEvaluation NON_COMPLIANT (PStr "AWS-CodePipeline-Service") "AWS::IAM::Role"
          (Some "This AWS IAM Role has not been used within the last 80 day(s)"%string)].
Proof. reflexivity. Qed.

(** C1. A role is classified COMPLIANT exactly when its age in whole days,
    the floor of [CURRENT_TIME] minus the reference instant, is at most the
    configured [DaysBeforeUnused]; an age equal to the threshold is
    COMPLIANT. *)
Theorem compliant_iff_age_within_threshold g params r d t age :
  params !! DBU = Some (PInt d) ->
  reference_instant r t ->
  whole_days (CURRENT_TIME g - t) age ->
  exists e, evaluate_role g params r = Ok e
            /\ (complianceType e = COMPLIANT <-> age <= d)
            /\ (complianceType e = NON_COMPLIANT <-> d < age)
            /\ (age = d -> complianceType e = COMPLIANT).
Proof.
  intros Hp Hr Hage.
  apply whole_days_unique in Hage. subst age.
  rewrite (evaluate_role_int _ _ _ _ _ Hp (role_diff_reference g _ _ Hr)).
  eexists. split; [reflexivity |].
  destruct (Z.leb_spec (timedelta_days (CURRENT_TIME g - t)) d); cbn;
    repeat split; intros; congruence || lia.
Qed.

Lemma compliant_on_the_boundary_witness :
  exists e, evaluate_role Scenarios.loaded (Scenarios.threshold 80) Scenarios.role_on_boundary = Ok e
            /\ (complianceType e = COMPLIANT <-> 80 <= 80)
            /\ (complianceType e = NON_COMPLIANT <-> 80 < 80)
            /\ (80 = 80 -> complianceType e = COMPLIANT).
Proof.
  apply (compliant_iff_age_within_threshold Scenarios.loaded (Scenarios.threshold 80)
           Scenarios.role_on_boundary 80
           (Scenarios.NOW - 80 * Scenarios.DAY - 5000000) 80).
  - reflexivity.
  - left. eexists. split; reflexivity.
  - split; [discriminate | reflexivity].
Defined.

(** C2. The staleness of a role is counted from its last-used timestamp
    when the record has one, and from its creation timestamp when the
    record has no [RoleLastUsed] field. *)
Theorem reference_is_last_use_else_creation g r t :
  (has_last_used r t -> role_diff g r = Ok (timedelta_days (CURRENT_TIME g - t)))
  /\ (r !! "RoleLastUsed"%string = None -> created_on r t ->
      role_diff g r = Ok (timedelta_days (CURRENT_TIME g - t))).
Proof.
  split.
  - apply role_diff_last_used.
  - intros Hnone Hcreated. apply role_diff_reference. right.
    split; [by left | assumption].
Qed.

Lemma reference_is_last_use_else_creation_witness :
  role_diff Scenarios.loaded Scenarios.role_unused = Ok 100
  /\ role_diff Scenarios.loaded Scenarios.role_never_used = Ok 100.
Proof.
  split.
  - apply (proj1 (reference_is_last_use_else_creation Scenarios.loaded
                    Scenarios.role_unused (Scenarios.NOW - 100 * Scenarios.DAY))).
    eexists. split; reflexivity.
  - apply (proj2 (reference_is_last_use_else_creation Scenarios.loaded
                    Scenarios.role_never_used (Scenarios.NOW - 100 * Scenarios.DAY)));
      reflexivity.
Defined.

(** C3. In the findings of a run, each NON_COMPLIANT one carries the
    annotation "This AWS IAM Role has not been used within the last
    {DaysBeforeUnused} day(s)": that text, with the decimal numeral of the
    configured threshold (and not of the age of the role) in the place of
    the braces; each COMPLIANT one carries none. *)
Theorem annotation_only_when_non_compliant g (page_iterator : list page) params d evs :
  params !! DBU = Some (PInt d) ->
  evaluate_periodic g page_iterator params = Ok evs ->
  Forall (fun e =>
            (complianceType e = NON_COMPLIANT ->
             annotation e
             = Some (String.append "This AWS IAM Role has not been used within the last "
                       (String.append (str_of_int d) " day(s)")))
            /\ (complianceType e = COMPLIANT -> annotation e = None)
            /\ complianceType e <> NOT_APPLICABLE) evs.
Proof.
  intros Hp Hrun. apply evaluate_periodic_spec in Hrun.
  induction Hrun as [| r e roles es He _ IH]; constructor; [| exact IH].
  destruct (role_diff g r) as [err | age] eqn:Hd.
  - unfold evaluate_role in He. rewrite Hd in He. discriminate.
  - rewrite (evaluate_role_int _ _ _ _ _ Hp Hd) in He.
    injection He as <-.
    destruct (age <=? d); cbn; repeat split; intros; reflexivity || congruence.
Qed.

Lemma annotation_only_when_non_compliant_witness :
  Forall (fun e =>
            (complianceType e = NON_COMPLIANT ->
             annotation e
             = Some "This AWS IAM Role has not been used within the last 80 day(s)"%string)
            /\ (complianceType e = COMPLIANT -> annotation e = None)
            /\ complianceType e <> NOT_APPLICABLE)
         [ mkEvaluation COMPLIANT (PStr "config-rule") "AWS::IAM::Role" None;
           mkEvaluation NON_COMPLIANT (PStr "AWS-CodePipeline-Service") "AWS::IAM::Role"
             (Some "This AWS IAM Role has not been used within the last 80 day(s)"%string);
           mkEvaluation NON_COMPLIANT (PStr "never-used") "AWS::IAM::Role"
             (Some "This AWS IAM Role has not been used within the last 80 day(s)"%string) ].
Proof.
  apply (annotation_only_when_non_compliant Scenarios.loaded Scenarios.two_pages
           (Scenarios.threshold 80) 80); reflexivity.
Defined.

Lemma well_formed_role_evaluates g params r d :
  params !! DBU = Some (PInt d) ->
  well_formed_role r ->
  exists e, evaluate_role g params r = Ok e
            /\ complianceResourceId e = dict_get r "RoleName"
            /\ complianceResourceType e = "AWS::IAM::Role"%string.
Proof.
  intros Hp [t Ht].
  rewrite (evaluate_role_int _ _ _ _ _ Hp (role_diff_reference g _ _ Ht)).
  eexists. split; [reflexivity |].
  destruct (_ <=? d); split; reflexivity.
Qed.

(** C8. A run over well-formed role records returns exactly one finding
    per record: as many findings as records, the finding of each record
    holding that record's [RoleName], and each tagged [AWS::IAM::Role]. *)
Theorem one_finding_per_role g (page_iterator : list page) params d :
  params !! DBU = Some (PInt d) ->
  Forall well_formed_role (concat (map Roles page_iterator)) ->
  exists evs,
    evaluate_periodic g page_iterator params = Ok evs
    /\ length evs = length (concat (map Roles page_iterator))
    /\ Forall2 (fun r e =>
                  complianceResourceId e = dict_get r "RoleName"
                  /\ complianceResourceType e = "AWS::IAM::Role"%string)
               (concat (map Roles page_iterator)) evs.
Proof.
  intros Hp Hwf.
  assert (Hall : exists evs,
             Forall2 (fun r e => evaluate_role g params r = Ok e
                                 /\ complianceResourceId e = dict_get r "RoleName"
                                 /\ complianceResourceType e = "AWS::IAM::Role"%string)
                     (concat (map Roles page_iterator)) evs).
  { induction Hwf as [| r roles Hr _ [evs IH]].
    - exists []. constructor.
    - destruct (well_formed_role_evaluates g _ _ _ Hp Hr) as [e He].
      exists (e :: evs). by constructor. }
  destruct Hall as [evs Hevs]. exists evs. repeat split.
  - apply evaluate_periodic_spec.
    eapply Forall2_impl; [exact Hevs |]. by intros r e [He _].
  - symmetry. eapply Forall2_length, Hevs.
  - eapply Forall2_impl; [exact Hevs |]. by intros r e [_ He].
Qed.

Lemma one_finding_per_role_witness :
  exists evs,
    evaluate_periodic Scenarios.loaded Scenarios.two_pages (Scenarios.threshold 80) = Ok evs
    /\ length evs = length (concat (map Roles Scenarios.two_pages))
    /\ Forall2 (fun r e =>
                  complianceResourceId e = dict_get r "RoleName"
                  /\ complianceResourceType e = "AWS::IAM::Role"%string)
               (concat (map Roles Scenarios.two_pages)) evs.
Proof.
  apply (one_finding_per_role Scenarios.loaded Scenarios.two_pages (Scenarios.threshold 80) 80).
  - reflexivity.
  - repeat constructor.
    + exists Scenarios.NOW. left. eexists. split; reflexivity.
    + exists (Scenarios.NOW - 100 * Scenarios.DAY). left. eexists. split; reflexivity.
    + exists (Scenarios.NOW - 100 * Scenarios.DAY). right. split; [left |]; reflexivity.
Defined.

Lemma dict_get_delete_ne r (k k' : string) :
  k <> k' -> dict_get (delete k r) k' = dict_get r k'.
Proof. intros H. unfold dict_get. by rewrite (lookup_delete_ne r k k'). Qed.

(** C10. A record whose [RoleLastUsed] is present but empty is evaluated
    as the same record without the field: its staleness is counted from
    [CreateDate], no last-used date is read, and nothing raises that would
    not raise without the field. *)
Theorem empty_last_used_is_no_last_used g params r :
  r !! "RoleLastUsed"%string = Some (PDict ∅) ->
  evaluate_role g params r = evaluate_role g params (delete "RoleLastUsed"%string r)
  /\ role_diff g r = role_diff g (delete "RoleLastUsed"%string r)
  /\ forall t, created_on r t ->
               role_diff g r = Ok (timedelta_days (CURRENT_TIME g - t)).
Proof.
  intros Hr.
  assert (Hdiff : role_diff g r = role_diff g (delete "RoleLastUsed"%string r)).
  { rewrite !role_diff_never_used.
    - by rewrite dict_get_delete_ne.
    - left. apply lookup_delete_eq.
    - by right. }
  repeat split.
  - unfold evaluate_role. rewrite Hdiff.
    by rewrite dict_get_delete_ne.
  - exact Hdiff.
  - intros t Ht. apply role_diff_reference. right. split; [by right | assumption].
Qed.

Lemma empty_last_used_is_no_last_used_witness :
  evaluate_role Scenarios.loaded (Scenarios.threshold 80) Scenarios.role_empty_last_used
  = evaluate_role Scenarios.loaded (Scenarios.threshold 80) Scenarios.role_never_used
  /\ role_diff Scenarios.loaded Scenarios.role_empty_last_used = Ok 100.
Proof.
  destruct (empty_last_used_is_no_last_used Scenarios.loaded (Scenarios.threshold 80)
              Scenarios.role_empty_last_used) as (He & _ & Hd); [reflexivity |].
  split.
  - rewrite He. reflexivity.
  - apply (Hd (Scenarios.NOW - 100 * Scenarios.DAY)). reflexivity.
Defined.

(** C7, as the code has it.  The clock is read exactly once, when the
    module is imported, and [CURRENT_TIME] keeps that reading: a run does
    not read the clock, every role of every run of the process is judged
    against that one instant, and the findings are a function of the
    configuration, the role sequence and the import-time reading, so two
    runs with identical inputs and identical import-time readings return
    identical results, whatever the clock says when they run. *)
Theorem clock_read_once_at_import (w : world) (page_iterator : list page) params :
  let g := fst (load_module w) in
  CURRENT_TIME g = wall_clock w
  /\ clock_samples (snd (load_module w)) = S (clock_samples w)
  /\ (forall w', snd (run_periodic g page_iterator params w') = w')
  /\ (forall w' evs,
        fst (run_periodic g page_iterator params w') = Ok evs ->
        Forall2 (fun r e =>
                   evaluate_role {| CURRENT_TIME := wall_clock w |} params r = Ok e)
                (concat (map Roles page_iterator)) evs)
  /\ (forall g' w1 w2,
        CURRENT_TIME g' = CURRENT_TIME g ->
        fst (run_periodic g' page_iterator params w1)
        = fst (run_periodic g page_iterator params w2)).
Proof.
  cbn. repeat split.
  - intros w' evs H. by apply evaluate_periodic_spec in H.
  - intros [now'] w1 w2 H. cbn in H. by subst.
Qed.

Lemma clock_read_once_at_import_witness :
  CURRENT_TIME Scenarios.old_process = CURRENT_TIME (fst (load_module Scenarios.at_import))
  /\ fst (run_periodic Scenarios.old_process Scenarios.two_pages (Scenarios.threshold 80)
            Scenarios.at_import)
     = fst (run_periodic (fst (load_module Scenarios.at_import)) Scenarios.two_pages
              (Scenarios.threshold 80) Scenarios.at_run).
Proof.
  split; [reflexivity |].
  apply (clock_read_once_at_import Scenarios.at_import Scenarios.two_pages
           (Scenarios.threshold 80)).
  reflexivity.
Defined.

(** C7, as the claim states it, fails.  Two runs get the same
    configuration and the same roles while the clock reads [NOW]; one is
    served by a process imported 100 days earlier, the other by a process
    imported at [NOW].  Neither reads the clock, and their findings for the
    role last used 100 days ago differ. *)
Lemma same_clock_reading_different_findings :
  wall_clock Scenarios.at_run = Scenarios.NOW
  /\ snd (run_periodic Scenarios.old_process [mkPage [Scenarios.role_unused]]
            (Scenarios.threshold 80) Scenarios.at_run) = Scenarios.at_run
  /\ fst (run_periodic Scenarios.old_process [mkPage [Scenarios.role_unused]]
            (Scenarios.threshold 80) Scenarios.at_run)
     = Ok [mkEvaluation COMPLIANT (PStr "AWS-CodePipeline-Service") "AWS::IAM::Role" None]
  /\ fst (run_periodic Scenarios.new_process [mkPage [Scenarios.role_unused]]
            (Scenarios.threshold 80) Scenarios.at_run)
     = Ok [mkEvaluation NON_COMPLIANT (PStr "AWS-CodePipeline-Service") "AWS::IAM::Role"
             (Some "This AWS IAM Role has not been used within the last 80 day(s)"%string)]
  /\ fst (run_periodic Scenarios.old_process [mkPage [Scenarios.role_unused]]
            (Scenarios.threshold 80) Scenarios.at_run)
     <> fst (run_periodic Scenarios.new_process [mkPage [Scenarios.role_unused]]
               (Scenarios.threshold 80) Scenarios.at_run).
Proof.
  repeat split; try reflexivity.
  intros H. vm_compute in H. discriminate H.
Qed.

End Evaluator.

(** ** Further properties of parameter validation *)

Section ValidationEdges.

Implicit Types (m : gmap string pyval) (v : pyval) (n : Z).

Lemma is_space_exclusive (c : ascii) :
  is_space c = true ->
  is_digit c = false /\ Ascii.eqb c "_" = false
  /\ c <> "-"%char /\ c <> "+"%char.
Proof.
  destruct c as [[] [] [] [] [] [] [] []]; cbn; intros H;
    try discriminate H; repeat split; discriminate.
Qed.

Lemma skip_spaces_blank (ws : list ascii) :
  forallb is_space ws = true -> skip_spaces ws = [].
Proof.
  induction ws as [| c ws IH]; cbn; [reflexivity |].
  intros [Hc Hws]%andb_prop. rewrite Hc. auto.
Qed.

Lemma skip_spaces_app_blank (ws cs : list ascii) :
  forallb is_space ws = true -> skip_spaces (ws ++ cs) = skip_spaces cs.
Proof.
  induction ws as [| c ws IH]; cbn; [reflexivity |].
  intros [Hc Hws]%andb_prop. rewrite Hc. auto.
Qed.

Lemma parse_digits_trailing_blank (n : Z) (ws : list ascii) :
  forallb is_space ws = true -> parse_digits n true ws = Some n.
Proof.
  intros Hws. destruct ws as [| c ws]; [reflexivity |].
  pose proof Hws as [Hc _]%andb_prop.
  destruct (is_space_exclusive c Hc) as (Hd & Hu & _).
  cbn [parse_digits]. rewrite Hd, Hu.
  by rewrite (skip_spaces_blank _ Hws).
Qed.

Lemma digits_of_app (f : nat) :
  forall (n : Z) (acc rest : list ascii),
    digits_of f n acc ++ rest = digits_of f n (acc ++ rest).
Proof.
  induction f as [| f IH]; intros n acc rest; [reflexivity |].
  rewrite !digits_of_S. destruct (n <? 10); [reflexivity |]. by rewrite IH.
Qed.

Lemma list_ascii_of_string_append (a b : string) :
  list_ascii_of_string (String.append a b)
  = list_ascii_of_string a ++ list_ascii_of_string b.
Proof.
  induction a as [| c a IH]; [reflexivity |].
  change (c :: list_ascii_of_string (String.append a b)
          = c :: (list_ascii_of_string a ++ list_ascii_of_string b)).
  by rewrite IH.
Qed.

Lemma is_digit_not_space (d : Z) : 0 <= d < 10 -> is_space (digit_char d) = false.
Proof. intros H. each_digit d H; reflexivity. Qed.

Lemma is_space_plain (c : ascii) : is_space c = true -> is_plain c = true.
Proof.
  unfold is_space, is_plain. intros H. apply N.ltb_lt.
  apply orb_prop in H as [[_ H]%andb_prop | H].
  - apply N.leb_le in H. lia.
  - apply N.eqb_eq in H. lia.
Qed.

Lemma blank_plain (ws : list ascii) :
  forallb is_space ws = true -> forallb is_plain ws = true.
Proof.
  induction ws as [| c ws IH]; [reflexivity |].
  intros [Hc Hws]%andb_prop. cbn [forallb].
  by rewrite (is_space_plain _ Hc), (IH Hws).
Qed.

Lemma int_of_str_plain_string (s : string) :
  forallb is_plain (list_ascii_of_string s) = true ->
  int_of_str s = int_of_ascii (list_ascii_of_string s).
Proof.
  intros H. rewrite <- (string_of_list_ascii_of_string s) at 1.
  by apply int_of_str_plain.
Qed.

(** [int] on a decimal numeral between two runs of blanks. *)
Lemma int_of_str_padded (N : Z) (before after : string) :
  0 <= N ->
  forallb is_space (list_ascii_of_string before) = true ->
  forallb is_space (list_ascii_of_string after) = true ->
  int_of_str (String.append before (String.append (str_of_int N) after)) = Some N.
Proof.
  intros HN Hb Ha.
  assert (Hstr : list_ascii_of_string (str_of_int N) = str_of_nonneg N).
  { unfold str_of_int. destruct (Z.ltb_spec N 0); [lia |].
    apply list_ascii_of_string_of_list_ascii. }
  rewrite int_of_str_plain_string; rewrite !list_ascii_of_string_append, Hstr.
  2: { rewrite !forallb_app, (blank_plain _ Hb), (blank_plain _ Ha).
       by rewrite str_of_nonneg_plain. }
  unfold int_of_ascii. rewrite (skip_spaces_app_blank _ _ Hb).
  unfold str_of_nonneg. rewrite digits_of_app. cbn [app].
  destruct (digits_of_head (Z.to_nat (Z.log2 N)) N (list_ascii_of_string after))
    as (d & tl & Hd & Heq).
  assert (Hparse : parse_digits 0 false
                     (digits_of (S (Z.to_nat (Z.log2 N))) N (list_ascii_of_string after))
                   = Some N).
  { rewrite parse_digits_digits_of by (apply log2_fuel; assumption).
    by apply parse_digits_trailing_blank. }
  rewrite Heq in *. cbn [skip_spaces]. rewrite (is_digit_not_space d) by assumption.
  clear Heq. each_digit d Hd; exact Hparse.
Qed.

Lemma truthy_append_l (a b : string) :
  truthy (PStr a) = true -> truthy (PStr (String.append a b)) = true.
Proof. destruct a; [discriminate | reflexivity]. Qed.

Lemma truthy_append_r (a b : string) :
  truthy (PStr b) = true -> truthy (PStr (String.append a b)) = true.
Proof. destruct a; [trivial | reflexivity]. Qed.

(** The same as [evaluate_parameters_truthy], read off the entry. *)
Lemma evaluate_parameters_entry m v :
  m !! DBU = Some v ->
  truthy v = true ->
  evaluate_parameters m =
  match py_int v with
  | inl ValueError => (m, Raise (InvalidParametersError NOT_INTEGER_MESSAGE))
  | inl e => (m, Raise e)
  | inr n =>
      if n <? 0
      then (<[DBU := PInt n]> m, Raise (InvalidParametersError NEGATIVE_MESSAGE))
      else (<[DBU := PInt n]> m, Ok tt)
  end.
Proof.
  intros Hm Hv.
  assert (Hget : dict_get m DBU = v) by (unfold dict_get; by rewrite Hm).
  rewrite evaluate_parameters_truthy; rewrite Hget; [reflexivity | assumption].
Qed.

(** X1. Whenever validation returns, the map it returns binds
    [DaysBeforeUnused] to an integer that is not negative, namely the one
    [int] made of the substituted value. *)
Theorem validated_threshold_is_a_natural m m' :
  evaluate_parameters m = (m', Ok tt) ->
  exists n, 0 <= n
            /\ m' !! DBU = Some (PInt n)
            /\ py_int (substituted_value m) = Ok n
            /\ m' = <[DBU := PInt n]> m.
Proof.
  rewrite evaluate_parameters_cases.
  destruct (py_int (substituted_value m)) as [[] | n]; try discriminate.
  destruct (Z.ltb_spec n 0); [discriminate |].
  intros [= <-]. exists n. repeat split; [assumption | apply lookup_insert_eq].
Qed.

Lemma validated_threshold_is_a_natural_witness :
  exists n, 0 <= n
            /\ <[DBU := PInt 7]> Scenarios.seven_and_other !! DBU = Some (PInt n)
            /\ py_int (substituted_value Scenarios.seven_and_other) = Ok n
            /\ <[DBU := PInt 7]> Scenarios.seven_and_other
               = <[DBU := PInt n]> Scenarios.seven_and_other.
Proof.
  apply (validated_threshold_is_a_natural Scenarios.seven_and_other).
  reflexivity.
Defined.

(** X2. When the [DaysBeforeUnused] entry is absent, [None], a [bool],
    an [int] or a string, validation has three outcomes and no other: it
    returns, or it raises [InvalidParametersError] with one of its two
    messages.  No [KeyError], [ValueError] or [TypeError] leaves the
    call. *)
Theorem validation_outcomes m :
  (m !! DBU = None
   \/ m !! DBU = Some PNone
   \/ (exists b, m !! DBU = Some (PBool b))
   \/ (exists n, m !! DBU = Some (PInt n))
   \/ (exists s, m !! DBU = Some (PStr s))) ->
  snd (evaluate_parameters m) = Ok tt
  \/ snd (evaluate_parameters m) = Raise (InvalidParametersError NOT_INTEGER_MESSAGE)
  \/ snd (evaluate_parameters m) = Raise (InvalidParametersError NEGATIVE_MESSAGE).
Proof.
  intros Hkind.
  destruct (truthy (dict_get m DBU)) eqn:Ht.
  - pose proof (truthy_dict_get _ _ Ht) as Hm.
    rewrite (evaluate_parameters_entry _ _ Hm Ht).
    destruct (dict_get m DBU) as [| b | n | s | t | d]; cbn in *.
    + discriminate.
    + destruct b; cbn; auto.
    + destruct (n <? 0); cbn; auto.
    + destruct (int_of_str s) as [n |]; [destruct (n <? 0) |]; cbn; auto.
    + destruct Hkind as [H | [H | [[? H] | [[? H] | [? H]]]]]; congruence.
    + destruct Hkind as [H | [H | [[? H] | [[? H] | [? H]]]]]; congruence.
  - rewrite (evaluate_parameters_falsy _ Ht). by left.
Qed.

Lemma validation_outcomes_witness :
  snd (evaluate_parameters EdgeCases.raw_threshold) = Ok tt
  \/ snd (evaluate_parameters EdgeCases.raw_threshold)
     = Raise (InvalidParametersError NOT_INTEGER_MESSAGE)
  \/ snd (evaluate_parameters EdgeCases.raw_threshold)
     = Raise (InvalidParametersError NEGATIVE_MESSAGE).
Proof.
  apply (validation_outcomes EdgeCases.raw_threshold).
  do 4 right. exists "80"%string. reflexivity.
Defined.

(** X3. Validating the decimal string of a negative integer fails with the
    "must be greater than or equal to 0" message, and by then the map holds
    that negative integer in place of the string. *)
Theorem negative_decimal_string_rejected (N : Z) :
  N < 0 ->
  evaluate_parameters {[ DBU := PStr (str_of_int N) ]}
  = ({[ DBU := PInt N ]}, Raise (InvalidParametersError NEGATIVE_MESSAGE)).
Proof.
  intros HN.
  rewrite (evaluate_parameters_entry _ (PStr (str_of_int N)));
    [| apply lookup_singleton_eq | apply truthy_str_of_int].
  cbn [py_int]. rewrite int_of_str_str_of_int.
  destruct (Z.ltb_spec N 0); [| lia].
  by rewrite insert_singleton_eq.
Qed.

Lemma negative_decimal_string_rejected_witness :
  -10 < 0
  /\ evaluate_parameters {[ DBU := PStr "-10" ]}
     = ({[ DBU := PInt (-10) ]}, Raise (InvalidParametersError NEGATIVE_MESSAGE)).
Proof.
  split; [lia |]. apply (negative_decimal_string_rejected (-10)). lia.
Defined.

(** X4. Validating a map that validation returned: the call returns
    again, and gives the same map back unless the threshold is 0; the
    integer 0 is falsy, so a second validation replaces it by the default
    90. *)
Theorem validation_twice m m' :
  evaluate_parameters m = (m', Ok tt) ->
  (m' !! DBU <> Some (PInt 0) -> evaluate_parameters m' = (m', Ok tt))
  /\ (m' !! DBU = Some (PInt 0) ->
      evaluate_parameters m' = (<[DBU := PInt 90]> m', Ok tt)).
Proof.
  intros (n & Hn & Hm')%evaluate_parameters_returns. split.
  - intros Hnz.
    assert (n <> 0) by (intros ->; contradiction).
    rewrite (evaluate_parameters_entry _ _ Hm'); cbn.
    + destruct (Z.ltb_spec n 0); [lia |]. by rewrite insert_id.
    + by apply negb_true_iff, Z.eqb_neq.
  - intros H0. apply evaluate_parameters_falsy.
    unfold dict_get. by rewrite H0.
Qed.

Lemma validation_twice_witness :
  evaluate_parameters {[ DBU := PStr "0" ]} = ({[ DBU := PInt 0 ]}, Ok tt)
  /\ evaluate_parameters {[ DBU := PInt 0 ]} = ({[ DBU := PInt 90 ]}, Ok tt)
  /\ evaluate_parameters {[ DBU := PInt 80 ]} = ({[ DBU := PInt 80 ]}, Ok tt).
Proof.
  assert (H0 : evaluate_parameters {[ DBU := PStr "0" ]} = ({[ DBU := PInt 0 ]}, Ok tt))
    by reflexivity.
  assert (H80 : evaluate_parameters {[ DBU := PStr "80" ]} = ({[ DBU := PInt 80 ]}, Ok tt))
    by reflexivity.
  split; [exact H0 |]. split.
  - rewrite (proj2 (validation_twice _ _ H0)); reflexivity.
  - apply (proj1 (validation_twice _ _ H80)). discriminate.
Defined.

(** X5. A decimal threshold written with ASCII blanks (space, tab, line
    feed, vertical tab, form feed, carriage return) before and after it is
    accepted with the same value: [int] strips them. *)
Theorem padded_decimal_string_accepted (N : Z) (before after : string) :
  0 <= N ->
  forallb is_space (list_ascii_of_string before) = true ->
  forallb is_space (list_ascii_of_string after) = true ->
  evaluate_parameters
    {[ DBU := PStr (String.append before (String.append (str_of_int N) after)) ]}
  = ({[ DBU := PInt N ]}, Ok tt).
Proof.
  intros HN Hb Ha.
  rewrite (evaluate_parameters_entry _ _ (lookup_singleton_eq _ _)).
  - cbn [py_int]. rewrite int_of_str_padded by assumption.
    destruct (Z.ltb_spec N 0); [lia |]. by rewrite insert_singleton_eq.
  - apply truthy_append_r, truthy_append_l, truthy_str_of_int.
Qed.

Lemma padded_decimal_string_accepted_witness :
  evaluate_parameters {[ DBU := PStr " 12  " ]} = ({[ DBU := PInt 12 ]}, Ok tt).
Proof.
  apply (padded_decimal_string_accepted 12 " " "  "); [lia | reflexivity | reflexivity].
Defined.

(** X6. A threshold made of blanks only is not taken for an unset one: the
    string is not empty, so no default is substituted, [int] cannot parse
    it, and validation fails with the "must be a integer" message, the map
    unchanged. *)
Theorem blank_string_is_not_unset m (s : string) :
  m !! DBU = Some (PStr s) ->
  s <> EmptyString ->
  forallb is_space (list_ascii_of_string s) = true ->
  evaluate_parameters m = (m, Raise (InvalidParametersError NOT_INTEGER_MESSAGE)).
Proof.
  intros Hm Hne Hs.
  rewrite (evaluate_parameters_entry _ _ Hm).
  - cbn [py_int]. rewrite int_of_str_plain_string by (by apply blank_plain).
    unfold int_of_ascii. by rewrite (skip_spaces_blank _ Hs).
  - destruct s; [contradiction | reflexivity].
Qed.

Lemma blank_string_is_not_unset_witness :
  evaluate_parameters EdgeCases.blank_threshold
  = (EdgeCases.blank_threshold, Raise (InvalidParametersError NOT_INTEGER_MESSAGE)).
Proof.
  apply (blank_string_is_not_unset EdgeCases.blank_threshold "  ");
    [reflexivity | discriminate | reflexivity].
Defined.

(** X7. Whether validation returns or raises, and what it raises, depends
    on the [DaysBeforeUnused] entry alone: two maps that agree on it get the
    same outcome, whatever else they hold. *)
Theorem validation_reads_one_key m1 m2 :
  m1 !! DBU = m2 !! DBU ->
  snd (evaluate_parameters m1) = snd (evaluate_parameters m2).
Proof.
  intros H. rewrite !evaluate_parameters_cases.
  assert (Hv : substituted_value m1 = substituted_value m2)
    by (unfold substituted_value, dict_get; by rewrite H).
  rewrite Hv.
  destruct (py_int (substituted_value m2)) as [[] | n]; try reflexivity.
  by destruct (n <? 0).
Qed.

Lemma validation_reads_one_key_witness :
  snd (evaluate_parameters EdgeCases.threshold_and_owner)
  = snd (evaluate_parameters (Scenarios.threshold 80)).
Proof.
  apply (validation_reads_one_key EdgeCases.threshold_and_owner (Scenarios.threshold 80)).
  reflexivity.
Defined.

(** X20. [int] raises [TypeError], not [ValueError], on a dictionary, and
    only [ValueError] is caught: a non-empty dictionary under
    [DaysBeforeUnused] makes validation raise [TypeError], the map
    unchanged. *)
Theorem dictionary_entry_raises_type_error m (d : gmap string pyval) :
  m !! DBU = Some (PDict d) ->
  d <> ∅ ->
  evaluate_parameters m = (m, Raise TypeError).
Proof.
  intros Hm Hd.
  rewrite (evaluate_parameters_entry _ _ Hm); [reflexivity |].
  cbn. destruct (Nat.eqb_spec (size d) 0) as [Hz | _]; [| reflexivity].
  by apply map_size_empty_iff in Hz.
Qed.

Lemma dictionary_entry_raises_type_error_witness :
  evaluate_parameters EdgeCases.nested_threshold
  = (EdgeCases.nested_threshold, Raise TypeError).
Proof.
  apply (dictionary_entry_raises_type_error EdgeCases.nested_threshold
           {[ "days"%string := PInt 80 ]}).
  - reflexivity.
  - intros H. apply (f_equal (fun x : gmap string pyval => x !! "days"%string)) in H.
    discriminate H.
Defined.

End ValidationEdges.

(** ** Further properties of the evaluator *)

Section EvaluatorEdges.

Implicit Types (g : module_globals) (r params : gmap string pyval) (t d age : Z).

(** X8. [get_roles] loses and invents nothing: listing two runs of pages
    one after the other gives the roles of the first followed by those of
    the second, and a record is returned exactly when some page holds it. *)
Theorem get_roles_keeps_every_role (ps1 ps2 : list page) (r : gmap string pyval) :
  get_roles (ps1 ++ ps2) = get_roles ps1 ++ get_roles ps2
  /\ (In r (get_roles ps1) <-> exists p, In p ps1 /\ In r (Roles p)).
Proof.
  rewrite !get_roles_concat. split.
  - by rewrite map_app, concat_app.
  - rewrite in_concat. split.
    + intros (l & Hl & Hr). apply in_map_iff in Hl as (p & <- & Hp). eauto.
    + intros (p & Hp & Hr). exists (Roles p). split; [by apply in_map | assumption].
Qed.

Lemma get_roles_keeps_every_role_witness :
  In Scenarios.role_never_used (get_roles Scenarios.two_pages).
Proof.
  apply (get_roles_keeps_every_role Scenarios.two_pages [] Scenarios.role_never_used).
  exists (mkPage [Scenarios.role_never_used]).
  split; [right; left; reflexivity | left; reflexivity].
Defined.

(** X9. A finding depends on three entries of the role record only,
    [RoleName], [RoleLastUsed] and [CreateDate]: records that agree on them
    get the same finding (or the same exception), whatever other fields
    they carry. *)
Theorem evaluate_role_reads_three_keys g params r r' :
  r !! "RoleName"%string = r' !! "RoleName"%string ->
  r !! "RoleLastUsed"%string = r' !! "RoleLastUsed"%string ->
  r !! "CreateDate"%string = r' !! "CreateDate"%string ->
  evaluate_role g params r = evaluate_role g params r'.
Proof.
  intros Hn Hl Hc. unfold evaluate_role, role_diff, dict_get.
  by rewrite Hn, Hl, Hc.
Qed.

Lemma evaluate_role_reads_three_keys_witness :
  evaluate_role Scenarios.loaded (Scenarios.threshold 80) EdgeCases.role_with_arn
  = evaluate_role Scenarios.loaded (Scenarios.threshold 80) Scenarios.role_in_use.
Proof.
  apply (evaluate_role_reads_three_keys Scenarios.loaded (Scenarios.threshold 80)
           EdgeCases.role_with_arn Scenarios.role_in_use); reflexivity.
Defined.

Lemma evaluate_role_threshold g params params' r :
  params !! DBU = params' !! DBU ->
  evaluate_role g params r = evaluate_role g params' r.
Proof. intros H. unfold evaluate_role, dict_get. by rewrite H. Qed.

Lemma evaluate_roles_threshold g params params' (roles : list (gmap string pyval)) :
  params !! DBU = params' !! DBU ->
  forall evaluations,
    evaluate_roles g params roles evaluations = evaluate_roles g params' roles evaluations.
Proof.
  intros H. induction roles as [| r rest IH]; intros evaluations; cbn; [reflexivity |].
  rewrite (evaluate_role_threshold _ _ _ _ H).
  destruct (evaluate_role g params' r); cbn; [reflexivity | apply IH].
Qed.

(** X10. A run reads the [DaysBeforeUnused] entry of the parameter map
    and nothing else: two maps that agree on it give the same findings. *)
Theorem evaluate_periodic_reads_one_key g (page_iterator : list page) params params' :
  params !! DBU = params' !! DBU ->
  evaluate_periodic g page_iterator params = evaluate_periodic g page_iterator params'.
Proof. intros H. by apply evaluate_roles_threshold. Qed.

Lemma evaluate_periodic_reads_one_key_witness :
  evaluate_periodic Scenarios.loaded Scenarios.two_pages EdgeCases.threshold_and_owner
  = evaluate_periodic Scenarios.loaded Scenarios.two_pages (Scenarios.threshold 80).
Proof.
  apply (evaluate_periodic_reads_one_key Scenarios.loaded Scenarios.two_pages
           EdgeCases.threshold_and_owner (Scenarios.threshold 80)).
  reflexivity.
Defined.

Lemma evaluate_roles_first_failure g params (before after : list (gmap string pyval))
    r (x : exn) :
  Forall (fun r0 => exists e, evaluate_role g params r0 = Ok e) before ->
  evaluate_role g params r = Raise x ->
  forall evaluations,
    evaluate_roles g params (before ++ r :: after) evaluations = Raise x.
Proof.
  intros Hb Hr. induction Hb as [| r0 rest [e He] _ IH]; intros evaluations; cbn.
  - by rewrite Hr.
  - rewrite He. cbn. apply IH.
Qed.

(** X11. The run stops at the first role whose evaluation raises: that
    exception is the outcome of the whole run, and the findings already
    made for the roles before it are not returned. *)
Theorem first_failure_ends_the_run g (page_iterator : list page) params
    (before after : list (gmap string pyval)) r (x : exn) :
  get_roles page_iterator = before ++ r :: after ->
  Forall (fun r0 => exists e, evaluate_role g params r0 = Ok e) before ->
  evaluate_role g params r = Raise x ->
  evaluate_periodic g page_iterator params = Raise x.
Proof.
  intros Hroles Hb Hr. unfold evaluate_periodic. rewrite Hroles.
  by apply evaluate_roles_first_failure.
Qed.

Lemma first_failure_ends_the_run_witness :
  evaluate_periodic Scenarios.loaded EdgeCases.pages_with_undated_role
    (Scenarios.threshold 80) = Raise TypeError.
Proof.
  apply (first_failure_ends_the_run Scenarios.loaded EdgeCases.pages_with_undated_role
           (Scenarios.threshold 80)
           [Scenarios.role_in_use] [Scenarios.role_unused] EdgeCases.role_without_dates).
  - reflexivity.
  - constructor; [| constructor]. eexists. reflexivity.
  - reflexivity.
Defined.

(** X12. A role whose [RoleLastUsed] is not empty but has no
    [LastUsedDate] cannot be evaluated: the subtraction raises [TypeError],
    and the creation date, present or not, is not used instead. *)
Theorem last_used_without_date_raises g params r (last_used : gmap string pyval) :
  r !! "RoleLastUsed"%string = Some (PDict last_used) ->
  last_used <> ∅ ->
  last_used !! "LastUsedDate"%string = None ->
  role_diff g r = Raise TypeError /\ evaluate_role g params r = Raise TypeError.
Proof.
  intros Hr Hne Hd.
  assert (Hdiff : role_diff g r = Raise TypeError).
  { unfold role_diff, dict_get. rewrite Hr. cbn.
    destruct (Nat.eqb_spec (size last_used) 0) as [Hz | _].
    - by apply map_size_empty_iff in Hz.
    - cbn. unfold dict_get. by rewrite Hd. }
  split; [exact Hdiff |]. unfold evaluate_role. by rewrite Hdiff.
Qed.

Lemma last_used_without_date_raises_witness :
  created_on EdgeCases.role_region_only (Scenarios.NOW - 100 * Scenarios.DAY)
  /\ evaluate_role Scenarios.loaded (Scenarios.threshold 80) EdgeCases.role_region_only
     = Raise TypeError.
Proof.
  split; [reflexivity |].
  apply (last_used_without_date_raises Scenarios.loaded (Scenarios.threshold 80)
           EdgeCases.role_region_only {[ "Region"%string := PStr "us-east-1" ]}).
  - reflexivity.
  - intros H. apply (f_equal (fun m : gmap string pyval => m !! "Region"%string)) in H.
    discriminate H.
  - reflexivity.
Defined.

(** X13. A role never used (no [RoleLastUsed], or an empty one) and
    without a [CreateDate] cannot be evaluated either: [TypeError]. *)
Theorem role_without_dates_raises g params r :
  never_used r ->
  r !! "CreateDate"%string = None ->
  role_diff g r = Raise TypeError /\ evaluate_role g params r = Raise TypeError.
Proof.
  intros Hn Hc.
  assert (Hdiff : role_diff g r = Raise TypeError).
  { rewrite (role_diff_never_used _ _ Hn). unfold dict_get. by rewrite Hc. }
  split; [exact Hdiff |]. unfold evaluate_role. by rewrite Hdiff.
Qed.

Lemma role_without_dates_raises_witness :
  evaluate_role Scenarios.loaded (Scenarios.threshold 80) EdgeCases.role_without_dates
  = Raise TypeError.
Proof.
  apply (role_without_dates_raises Scenarios.loaded (Scenarios.threshold 80)
           EdgeCases.role_without_dates); [left |]; reflexivity.
Defined.

(** X14. [evaluate_periodic] does not convert its threshold: with a
    parameter map that lacks [DaysBeforeUnused], or holds it as a string
    still, the comparison of every datable role raises [TypeError]. *)
Theorem unvalidated_threshold_raises g params r :
  well_formed_role r ->
  (params !! DBU = None \/ exists s : string, params !! DBU = Some (PStr s)) ->
  evaluate_role g params r = Raise TypeError.
Proof.
  intros [t Ht] Hp. unfold evaluate_role.
  rewrite (role_diff_reference g _ _ Ht). cbn. unfold dict_get.
  by destruct Hp as [-> | [s ->]].
Qed.

Lemma unvalidated_threshold_raises_witness :
  evaluate_role Scenarios.loaded EdgeCases.raw_threshold Scenarios.role_in_use
  = Raise TypeError
  /\ evaluate_role Scenarios.loaded ∅ Scenarios.role_in_use = Raise TypeError.
Proof.
  split.
  - apply (unvalidated_threshold_raises Scenarios.loaded EdgeCases.raw_threshold
             Scenarios.role_in_use).
    + exists Scenarios.NOW. left. eexists. split; reflexivity.
    + right. exists "80"%string. reflexivity.
  - apply (unvalidated_threshold_raises Scenarios.loaded ∅ Scenarios.role_in_use).
    + exists Scenarios.NOW. left. eexists. split; reflexivity.
    + left. reflexivity.
Defined.

Lemma timedelta_days_le_iff td d :
  timedelta_days td <= d <-> td < (d + 1) * MICROSECONDS_PER_DAY.
Proof.
  pose proof (whole_days_timedelta td) as H.
  unfold whole_days, MICROSECONDS_PER_DAY in *. lia.
Qed.

(** X15. In clock time: a role is COMPLIANT exactly when less than
    [DaysBeforeUnused + 1] full days lie between its reference instant and
    [CURRENT_TIME]; with a threshold of 0, when it was used less than 24
    hours before. *)
Theorem compliant_iff_within_window g params r d t :
  params !! DBU = Some (PInt d) ->
  reference_instant r t ->
  exists e, evaluate_role g params r = Ok e
            /\ (complianceType e = COMPLIANT
                <-> CURRENT_TIME g - t < (d + 1) * MICROSECONDS_PER_DAY).
Proof.
  intros Hp Hr.
  rewrite (evaluate_role_int _ _ _ _ _ Hp (role_diff_reference g _ _ Hr)).
  eexists. split; [reflexivity |].
  rewrite <- timedelta_days_le_iff.
  destruct (Z.leb_spec (timedelta_days (CURRENT_TIME g - t)) d); cbn;
    split; intros; congruence || lia.
Qed.

Lemma compliant_iff_within_window_witness :
  exists e, evaluate_role Scenarios.loaded (Scenarios.threshold 0) Scenarios.role_in_use = Ok e
            /\ (complianceType e = COMPLIANT
                <-> Scenarios.NOW - Scenarios.NOW < (0 + 1) * MICROSECONDS_PER_DAY).
Proof.
  apply (compliant_iff_within_window Scenarios.loaded (Scenarios.threshold 0)
           Scenarios.role_in_use 0 Scenarios.NOW).
  - reflexivity.
  - left. eexists. split; reflexivity.
Defined.

(** X16. Raising the threshold never costs a role its compliance: a role
    found COMPLIANT under a threshold gets the same finding under every
    larger one. *)
Theorem larger_threshold_keeps_compliance g params params' r d d' (e : Evaluation) :
  params !! DBU = Some (PInt d) ->
  params' !! DBU = Some (PInt d') ->
  d <= d' ->
  evaluate_role g params r = Ok e ->
  complianceType e = COMPLIANT ->
  evaluate_role g params' r = Ok e.
Proof.
  intros Hp Hp' Hle He Hc.
  destruct (role_diff g r) as [err | age] eqn:Hd.
  - unfold evaluate_role in He. rewrite Hd in He. discriminate.
  - rewrite (evaluate_role_int _ _ _ _ _ Hp Hd) in He.
    rewrite (evaluate_role_int _ _ _ _ _ Hp' Hd).
    destruct (Z.leb_spec age d).
    + destruct (Z.leb_spec age d'); [exact He | lia].
    + injection He as <-. discriminate Hc.
Qed.

Lemma larger_threshold_keeps_compliance_witness :
  evaluate_role Scenarios.loaded (Scenarios.threshold 90) Scenarios.role_on_boundary
  = Ok (mkEvaluation COMPLIANT (PStr "on-boundary") "AWS::IAM::Role" None).
Proof.
  apply (larger_threshold_keeps_compliance Scenarios.loaded
           (Scenarios.threshold 80) (Scenarios.threshold 90)
           Scenarios.role_on_boundary 80 90); reflexivity || lia.
Defined.

(** X17. A role whose reference instant is not before [CURRENT_TIME] (it
    was used, or created, after the module was imported) has an age of 0
    days or less and is COMPLIANT under every validated threshold. *)
Theorem used_since_import_is_compliant g params r d t :
  params !! DBU = Some (PInt d) ->
  0 <= d ->
  reference_instant r t ->
  CURRENT_TIME g <= t ->
  evaluate_role g params r
  = Ok (mkEvaluation COMPLIANT (dict_get r "RoleName") "AWS::IAM::Role" None).
Proof.
  intros Hp Hd Hr Ht.
  rewrite (evaluate_role_int _ _ _ _ _ Hp (role_diff_reference g _ _ Hr)).
  assert (Hage : timedelta_days (CURRENT_TIME g - t) <= d).
  { apply timedelta_days_le_iff. unfold MICROSECONDS_PER_DAY. lia. }
  by destruct (Z.leb_spec (timedelta_days (CURRENT_TIME g - t)) d); [| lia].
Qed.

Lemma used_since_import_is_compliant_witness :
  role_diff Scenarios.loaded Scenarios.role_used_after_import = Ok (-1)
  /\ evaluate_role Scenarios.loaded (Scenarios.threshold 0) Scenarios.role_used_after_import
     = Ok (mkEvaluation COMPLIANT (PStr "config-rule") "AWS::IAM::Role" None).
Proof.
  split; [reflexivity |].
  apply (used_since_import_is_compliant Scenarios.loaded (Scenarios.threshold 0)
           Scenarios.role_used_after_import 0 (Scenarios.NOW + 1000000)).
  - reflexivity.
  - lia.
  - left. eexists. split; reflexivity.
  - discriminate.
Defined.

(** X18. Runs compose: when the run over one listing and the run over
    another both return, the run over the first listing followed by the
    second returns the findings of the first followed by those of the
    second. *)
Theorem runs_compose g (ps1 ps2 : list page) params (evs1 evs2 : list Evaluation) :
  evaluate_periodic g ps1 params = Ok evs1 ->
  evaluate_periodic g ps2 params = Ok evs2 ->
  evaluate_periodic g (ps1 ++ ps2) params = Ok (evs1 ++ evs2).
Proof.
  rewrite !evaluate_periodic_spec, map_app, concat_app.
  intros H1 H2. by apply Forall2_app.
Qed.

Lemma runs_compose_witness :
  evaluate_periodic Scenarios.loaded Scenarios.two_pages (Scenarios.threshold 80)
  = Ok ([ mkEvaluation COMPLIANT (PStr "config-rule") "AWS::IAM::Role" None;
          mkEvaluation NON_COMPLIANT (PStr "AWS-CodePipeline-Service") "AWS::IAM::Role"
            (Some "This AWS IAM Role has not been used within the last 80 day(s)"%string) ]
        ++ [ mkEvaluation NON_COMPLIANT (PStr "never-used") "AWS::IAM::Role"
               (Some "This AWS IAM Role has not been used within the last 80 day(s)"%string) ]).
Proof.
  apply (runs_compose Scenarios.loaded
           [mkPage [Scenarios.role_in_use; Scenarios.role_unused]]
           [mkPage [Scenarios.role_never_used]] (Scenarios.threshold 80));
    reflexivity.
Defined.

Lemma well_formed_roles_evaluate g params d (roles : list (gmap string pyval)) :
  params !! DBU = Some (PInt d) ->
  Forall well_formed_role roles ->
  exists evs, Forall2 (fun r e => evaluate_role g params r = Ok e) roles evs.
Proof.
  intros Hp Hwf. induction Hwf as [| r rest Hr _ [evs IH]].
  - exists []. constructor.
  - destruct (well_formed_role_evaluates g _ _ _ Hp Hr) as (e & He & _).
    exists (e :: evs). by constructor.
Qed.

(** X19. Validation and evaluation compose: the map that validation
    returns is always a usable configuration.  Over role records that can
    be dated, the run with it returns, one finding per record. *)
Theorem validated_configuration_evaluates g (m m' : gmap string pyval)
    (page_iterator : list page) :
  evaluate_parameters m = (m', Ok tt) ->
  Forall well_formed_role (get_roles page_iterator) ->
  exists evs, evaluate_periodic g page_iterator m' = Ok evs
              /\ length evs = length (get_roles page_iterator).
Proof.
  intros (n & _ & Hm')%evaluate_parameters_returns Hwf.
  rewrite get_roles_concat in *.
  destruct (well_formed_roles_evaluate g _ _ _ Hm' Hwf) as [evs Hevs].
  exists evs. split.
  - by apply evaluate_periodic_spec.
  - symmetry. eapply Forall2_length, Hevs.
Qed.

Lemma validated_configuration_evaluates_witness :
  exists evs,
    evaluate_periodic Scenarios.loaded Scenarios.two_pages
      (fst (evaluate_parameters EdgeCases.raw_threshold)) = Ok evs
    /\ length evs = length (get_roles Scenarios.two_pages).
Proof.
  apply (validated_configuration_evaluates Scenarios.loaded EdgeCases.raw_threshold
           (fst (evaluate_parameters EdgeCases.raw_threshold)) Scenarios.two_pages).
  - reflexivity.
  - repeat constructor.
    + exists Scenarios.NOW. left. eexists. split; reflexivity.
    + exists (Scenarios.NOW - 100 * Scenarios.DAY). left. eexists. split; reflexivity.
    + exists (Scenarios.NOW - 100 * Scenarios.DAY). right. split; [left |]; reflexivity.
Defined.

End EvaluatorEdges.
